(** * BirdsEye, [birdseye/mcts.py]: configuration layers and the trial loop

    The development embeds the two functions of [birdseye/mcts.py]:

    - [mcts], the entry point, which merges the built-in defaults, an optional
      [configparser] object and the command line into an [argparse]
      name space;
    - [run_mcts], which runs [config.trials] trials, keeps [run_data] and
      hands it to the results sink after every trial.

    Modelling conventions.

    - Python scalars are the type [value]; floats are an abstract type with
      the operations of the class [Builtins] ([float(s)], [str(x)], truth
      value), since their rounding is of no concern here.
    - A [dict] with string keys and an [argparse.Namespace] are [gmap string].
    - External collaborators (the clock, [mcts_trial], [Results], the header
      log, the default environment) are the fields of the class [Externals];
      they transform an abstract [World] and may raise.
    - Calls to the collaborators and [print] are recorded in a trace of
      [event]s, carried next to the world; the statements about "how many
      times" and "in which order" are statements about this trace.
    - The library code is modelled on the inputs the module gives it: the
      file configuration is a [ConfigParser], so its option names are in
      lower case, and its values and the built-in defaults hold no
      interpolation marker (the predicates [plain_file] and
      [plain_defaults] say so where a statement needs it); the command line
      is the sequence of occurrences of the eight registered flags with
      their raw argument, as [argparse] recognises them. *)

From Stdlib Require Import ZArith String Ascii List.
From Stdlib Require Import DecimalString DecimalZ.
From stdpp Require Import base option list list_numbers strings gmap fin_maps.

Local Open Scope Z_scope.
Local Open Scope string_scope.
Local Open Scope list_scope.

(** ** Python values *)

(** What Python's built-ins do on floats and on the integer literals that
    are not plain decimal numerals, and the order in which a [dict] lists
    its keys. *)
Class Builtins := {
  F : Type;
  (** [float(s)]; [None] is [ValueError] *)
  py_float : string -> option F;
  (** [str(x)] for a float *)
  float_str : F -> string;
  (** [bool(x)] for a float *)
  float_truth : F -> bool;
  (** [int(s)] on the strings that are not of the form [-?[0-9]+]
      (surrounding blanks, a [+] sign, underscores); [None] is [ValueError] *)
  py_int_ext : string -> option Z;
  (** the keys of a [dict] in the order of insertion, which a [gmap] does
      not record *)
  dict_keys : gset string -> list string;
  dict_keys_perm : forall X, dict_keys X ≡ₚ elements X
}.

Inductive exn : Type :=
| AttributeError (name : string)
| TypeError
| IndexError
| ValueError
| ZeroDivisionError
| NoSectionError (section : string)
| NoOptionError (option section : string)
| DuplicateOptionError (section option : string)
| SystemExit (code : Z)
| Raised (tag : nat).

Inductive res (A : Type) : Type :=
| Ok (a : A)
| Err (e : exn).
Arguments Ok {A} a.
Arguments Err {A} e.

Definition handle := nat.

Section Values.
Context `{Builtins}.

Inductive value : Type :=
| VNone
| VBool (b : bool)
| VInt (z : Z)
| VFloat (x : F)
| VStr (s : string).

#[warnings="-register-all"]
Inductive pyobj : Type :=
| Atom (v : value)
| PList (l : list pyobj)
| PTime (t : Z)
| PDelta (d : Z).

(** [str(n)] for an [int] *)
Definition int_str (n : Z) : string := NilZero.string_of_int (Z.to_int n).

(** [int(s)] *)
Definition py_int (s : string) : option Z :=
  match NilZero.int_of_string s with
  | Some d => Some (Z.of_int d)
  | None => py_int_ext s
  end.

(** [bool(s)] for a string: true unless empty *)
Definition py_bool (s : string) : bool :=
  match s with
  | EmptyString => false
  | String _ _ => true
  end.

(** [str(v)] as [ConfigParser.read_dict] applies it; [None] stays [None] *)
Definition py_str (v : value) : option string :=
  match v with
  | VNone => None
  | VBool true => Some "True"
  | VBool false => Some "False"
  | VInt n => Some (int_str n)
  | VFloat x => Some (float_str x)
  | VStr s => Some s
  end.

(** Truth value, as [if results.plotting:] takes it *)
Definition truthy (v : value) : bool :=
  match v with
  | VNone => false
  | VBool b => b
  | VInt n => negb (n =? 0)%Z
  | VFloat x => float_truth x
  | VStr s => py_bool s
  end.

(** ** The flags of the parser (lines 122-129) *)

Inductive flag : Type :=
| lambda_arg | collision | loss | depth | simulations | plotting | trials
| iterations.

Inductive argtype : Type := TFloat | TInt | TBool.

(** in the order of the [add_argument] calls *)
Definition flags : list flag :=
  [lambda_arg; collision; loss; depth; simulations; plotting; trials;
   iterations].

Definition dest (f : flag) : string :=
  match f with
  | lambda_arg => "lambda_arg"
  | collision => "collision"
  | loss => "loss"
  | depth => "depth"
  | simulations => "simulations"
  | plotting => "plotting"
  | trials => "trials"
  | iterations => "iterations"
  end.

Definition flag_type (f : flag) : argtype :=
  match f with
  | lambda_arg | collision | loss | depth => TFloat
  | simulations | trials | iterations => TInt
  | plotting => TBool
  end.

(** [ArgumentParser._get_value]: the [type] function on a string; [None]
    is the [ArgumentError] that [parse_known_args] turns into [exit(2)] *)
Definition get_value (f : flag) (s : string) : option value :=
  match flag_type f with
  | TFloat => VFloat <$> py_float s
  | TInt => VInt <$> py_int s
  | TBool => Some (VBool (py_bool s))
  end.

(** ** [configparser] *)

(** [str.lower] on the characters of ASCII, of which the strings of the
    model are made *)
Definition lower_ascii (c : ascii) : ascii :=
  let n := nat_of_ascii c in
  if (Nat.leb 65 n && Nat.leb n 90)%bool then ascii_of_nat (n + 32) else c.

Fixpoint lower (s : string) : string :=
  match s with
  | EmptyString => EmptyString
  | String c r => String (lower_ascii c) (lower r)
  end.

(** [RawConfigParser._convert_to_boolean] with [BOOLEAN_STATES] *)
Definition convert_to_boolean (s : string) : option bool :=
  let l := lower s in
  if bool_decide (l ∈ ["1"; "yes"; "true"; "on"]) then Some true
  else if bool_decide (l ∈ ["0"; "no"; "false"; "off"]) then Some false
  else None.

(** A [ConfigParser]: the [DEFAULT] section and the named sections. *)
Record configparser : Type := {
  cp_defaults : gmap string string;
  cp_sections : gmap string (gmap string string)
}.

(** [defaults.items()] *)
Definition dict_items (defaults : gmap string value)
  : list (string * value) :=
  omap (fun k => (fun v => (k, v)) <$> defaults !! k)
    (dict_keys (dom defaults)).

(** [read_dict] on the items of the [DEFAULT] section, one after the other:
    the key goes through [optionxform], which puts it in lower case; a key
    that was added before is refused ([strict]); the value goes through
    [str] unless it is [None], which [set] refuses. *)
Fixpoint read_defaults (items : list (string * value))
    (added : gmap string string) : res (gmap string string) :=
  match items with
  | [] => Ok added
  | (k, v) :: rest =>
      let key := lower k in
      match added !! key with
      | Some _ => Err (DuplicateOptionError "DEFAULT" key)
      | None =>
          match py_str v with
          | Some s => read_defaults rest (<[key := s]> added)
          | None => Err TypeError
          end
      end
  end.

(** [ConfigParser(defaults)] (line 111): the [DEFAULT] section *)
Definition stringify (defaults : gmap string value)
  : res (gmap string string) :=
  read_defaults (dict_items defaults) ∅.

(** [config.items(section)] *)
Definition items (c : configparser) (section : string)
  : res (gmap string string) :=
  match cp_sections c !! section with
  | Some opts => Ok (opts ∪ cp_defaults c)
  | None => Err (NoSectionError section)
  end.

(** [config.getboolean(section, option)] *)
Definition getboolean (c : configparser) (section option : string)
  : res bool :=
  match items c section with
  | Err e => Err e
  | Ok d =>
      match d !! option with
      | None => Err (NoOptionError option section)
      | Some s =>
          match convert_to_boolean s with
          | Some b => Ok b
          | None => Err ValueError
          end
      end
  end.

End Values.

(** ** Results of fallible code *)

Definition res_bind {A B : Type} (r : res A) (k : A -> res B) : res B :=
  match r with
  | Ok a => k a
  | Err e => Err e
  end.

Declare Scope res_scope.
Delimit Scope res_scope with res.

Notation "x <- c1 ;; c2" := (res_bind c1 (fun x => c2))
  (at level 100, c1 at next level, right associativity) : res_scope.

#[global] Instance flag_eq_dec : EqDecision flag.
Proof. solve_decision. Defined.

Section Resolve.
Context `{Builtins}.

(** ** [argparse] *)

(** The name space before the command line is read: a flag holds the
    default that [set_defaults] gave for it, or [None]; the defaults that
    belong to no flag are added as they are. *)
Definition initial_namespace (defaults : gmap string value)
  : gmap string value :=
  defaults ∪ list_to_map ((fun f => (dest f, VNone)) <$> flags).

(** The occurrences of flags on the command line, left to right: each
    stores its converted argument. The command line is given by the
    occurrences [--flag=value] (or [--flag value]) of the eight flags, in
    order; the arguments that belong to no flag, which [parse_known_args]
    sets aside, are left out. A command line with [-h], with a flag that
    lacks its argument or with an abbreviation that fits several flags, on
    which line 130 exits, is not of this form. *)
Fixpoint take_actions (argv : list (flag * string)) (ns : gmap string value)
  : res (gmap string value) :=
  match argv with
  | [] => Ok ns
  | (f, s) :: rest =>
      match get_value f s with
      | Some v => take_actions rest (<[dest f := v]> ns)
      | None => Err (SystemExit 2)
      end
  end.

Definition seen (argv : list (flag * string)) (f : flag) : bool :=
  bool_decide (f ∈ argv.*1).

(** The flags that were not given: a default that is a string goes through
    the flag's [type]. *)
Fixpoint convert_defaults (fs : list flag) (argv : list (flag * string))
    (defaults ns : gmap string value) : res (gmap string value) :=
  match fs with
  | [] => Ok ns
  | f :: rest =>
      if seen argv f then convert_defaults rest argv defaults ns
      else
        match defaults !! dest f with
        | Some (VStr s) =>
            match get_value f s with
            | Some v => convert_defaults rest argv defaults (<[dest f := v]> ns)
            | None => Err (SystemExit 2)
            end
        | _ => convert_defaults rest argv defaults ns
        end
  end.

(** [parser.set_defaults] with the defaults, the eight [add_argument]
    calls and [parser.parse_known_args] *)
Definition parse_known_args (defaults : gmap string value)
    (argv : list (flag * string)) : res (gmap string value) :=
  (ns <- take_actions argv (initial_namespace defaults);;
   convert_defaults flags argv defaults ns)%res.

(** ** Lines 105-130 of [mcts] *)

(** Lines 111-115: [args] is the file configuration, given by its sections
    as [dict(args[section])] lists them, with option names in lower case.
    The values are taken as they are written: this is what lines 112-115
    do with values that hold no interpolation marker ([plain_file],
    [plain_defaults]). *)
Definition file_layer (mcts_defaults : gmap string value)
    (args : gmap string (gmap string string))
  : res (configparser * gmap string value) :=
  (d <- stringify mcts_defaults;;
   let config := {| cp_defaults := d; cp_sections := args |} in
   defaults <- items config "Defaults";;
   b <- getboolean config "Defaults" "plotting";;
   Ok (config, <["plotting" := VBool b]> (VStr <$> defaults)))%res.

Definition resolve (args : option (gmap string (gmap string string)))
    (mcts_defaults : gmap string value) (argv : list (flag * string))
  : res (option configparser * gmap string value) :=
  (layer <-
     match args with
     | Some a => cd <- file_layer mcts_defaults a;; Ok (Some cd.1, cd.2)
     | None => Ok (None, mcts_defaults)
     end;;
   ns <- parse_known_args layer.2 argv;;
   Ok (layer.1, ns))%res.

End Resolve.

(** ** The collaborators and the trace *)

Section Collaborators.
Context `{Builtins}.

(** Modelled from the spec: the class [Results] of [birdseye/utils.py] is
    not part of the sources at hand. Section 6 of the specification has the
    sink constructed with the method name, the start time, the number of
    runs and the plotting flag; the handle keeps them as given, and
    [results.plotting] reads the last one. Its two methods are collaborators
    ([write_dataframe], [save_gif] below); they receive [run_data] as a
    read-only view (section 5). *)
Record Results : Type := {
  results_method_name : string;
  results_global_start_time : option string;
  results_num_iters : value;
  results_plotting : value
}.

(** The arguments of one call of [mcts_trial] (lines 72-82) *)
Record trial_args : Type := {
  ta_env : handle;
  ta_iterations : value;
  ta_depth : value;
  ta_horizon : Z;
  ta_plotting : value;
  ta_simulations : value;
  ta_fig : option handle;
  ta_ax : option handle;
  ta_results : Results
}.

(** The lines of the progress report (lines 90-97) *)
Inductive line : Type :=
| LDot
| LRule
| LRuns (i : Z)
| LSimulations (v : value)
| LDepth (v : value)
| LCollisionRate (r : pyobj)
| LLossRate (r : pyobj).

(** [EvTrial] carries the loop index at the time of the call and what the
    call gave: the index is not an argument of [mcts_trial]. *)
Inductive event : Type :=
| EvHeader (config : configparser) (method start : string)
| EvTrial (i : Z) (a : trial_args) (out : res (list pyobj))
| EvPrint (l : line)
| EvWrite (r : Results) (run_data : list (list pyobj))
| EvGif (r : Results) (i : Z).

Class Externals := {
  World : Type;
  (** [datetime.now()] *)
  now : World -> Z * World;
  (** [strftime] with the format of line 139 *)
  strftime : Z -> string;
  (** [mcts_trial] of [birdseye/mcts_utils.py] *)
  mcts_trial : trial_args -> World -> res (list pyobj) * World;
  (** [x / i] of a payload element by the loop index, [i] not zero *)
  truediv : pyobj -> Z -> res pyobj;
  (** [Results.write_dataframe] *)
  write_dataframe : Results -> list (list pyobj) -> World -> res unit * World;
  (** [Results.save_gif] *)
  save_gif : Results -> Z -> World -> res unit * World;
  (** [write_header_log] of [birdseye/utils.py] *)
  write_header_log :
    configparser -> string -> string -> World -> res unit * World;
  (** lines 134-137: [RFEnv(Drone(), SimpleActions(), RFState())] *)
  default_env : World -> res handle * World
}.

End Collaborators.

(** ** The monad of [mcts] and [run_mcts]: world, trace and exceptions *)

Section Monad.
Context `{Builtins} `{!Externals}.

Definition state : Type := World * list event.

Definition M (A : Type) : Type := state -> res A * state.

Definition ret {A : Type} (a : A) : M A := fun s => (Ok a, s).

Definition bind {A B : Type} (m : M A) (k : A -> M B) : M B :=
  fun s =>
    match m s with
    | (Ok a, s') => k a s'
    | (Err e, s') => (Err e, s')
    end.

Definition lift {A : Type} (r : res A) : M A := fun s => (r, s).

(** a call of a collaborator, recorded by [ev] *)
Definition call {A : Type} (f : World -> res A * World)
    (ev : res A -> list event) : M A :=
  fun s =>
    let (r, w) := f s.1 in
    (r, (w, s.2 ++ ev r)).

Definition clock : M Z :=
  fun s => let (t, w) := now s.1 in (Ok t, (w, s.2)).

Definition print (l : line) : M unit :=
  fun s => (Ok tt, (s.1, s.2 ++ [EvPrint l])).

End Monad.

Declare Scope M_scope.
Delimit Scope M_scope with M.

Notation "x <- c1 ;; c2" := (bind c1 (fun x => c2))
  (at level 100, c1 at next level, right associativity) : M_scope.
Notation "c1 ;; c2" := (bind c1 (fun _ => c2))
  (at level 100, right associativity) : M_scope.

(** ** [run_mcts] and [mcts] *)

Section Program.
Context `{Builtins} `{!Externals}.

(** [result[n]] on the list that [mcts_trial] returned *)
Definition getitem (result : list pyobj) (n : nat) : res pyobj :=
  match result !! n with
  | Some x => Ok x
  | None => Err IndexError
  end.

Fixpoint string_last (s : string) : option ascii :=
  match s with
  | EmptyString => None
  | String c EmptyString => Some c
  | String _ r => string_last r
  end.

(** [x[-1]] *)
Definition last_item (x : pyobj) : res pyobj :=
  match x with
  | PList l =>
      match last l with
      | Some y => Ok y
      | None => Err IndexError
      end
  | Atom (VStr s) =>
      match string_last s with
      | Some c => Ok (Atom (VStr (String c EmptyString)))
      | None => Err IndexError
      end
  | _ => Err TypeError
  end.

(** [result[n][-1]] *)
Definition last_of (result : list pyobj) (n : nat) : res pyobj :=
  (x <- getitem result n;; last_item x)%res.

(** [config.name] on a name space *)
Definition getattr (config : gmap string value) (name : string) : res value :=
  match config !! name with
  | Some v => Ok v
  | None => Err (AttributeError name)
  end.

(** [range(1, num_runs + 1)]: an [int] (or a [bool]) is needed *)
Definition range_from_1 (num_runs : value) : res (list Z) :=
  match num_runs with
  | VInt n => Ok (seqZ 1 n)
  | VBool b => Ok (seqZ 1 (Z.b2z b))
  | _ => Err TypeError
  end.

(** The variables of the loop that change: [run_data], [mcts_loss],
    [mcts_coll] (lines 65-69). *)
Record loop_state : Type := {
  run_data : list (list pyobj);
  mcts_loss : pyobj;
  mcts_coll : pyobj
}.

Section Loop.
(** the variables of [run_mcts] that the loop reads *)
Variables (env : handle) (iterations DEPTH plotting_flag simulations : value)
  (fig ax : option handle) (results : Results).

Definition call_args : trial_args :=
  {| ta_env := env; ta_iterations := iterations; ta_depth := DEPTH;
     ta_horizon := 20; ta_plotting := plotting_flag;
     ta_simulations := simulations; ta_fig := fig; ta_ax := ax;
     ta_results := results |}.

(** One turn of the loop, lines 71-102 *)
Definition trial (i : Z) (st : loop_state) : M loop_state :=
  (run_start_time <- clock;;
   result <- call (mcts_trial call_args) (fun r => [EvTrial i call_args r]);;
   t <- clock;;
   let run_time := t - run_start_time in
   t' <- clock;;
   let run_data := run_data st ++ [[PTime t'; PDelta run_time] ++ drop 1 result] in
   mcts_coll <- lift (last_of result 6);;
   mcts_loss <- lift (last_of result 7);;
   print LDot;;
   print LRule;;
   print (LRuns i);;
   print (LSimulations simulations);;
   print (LDepth DEPTH);;
   coll_rate <- lift (truediv mcts_coll i);;
   print (LCollisionRate coll_rate);;
   loss_rate <- lift (truediv mcts_loss i);;
   print (LLossRate loss_rate);;
   print LRule;;
   call (write_dataframe results run_data)
        (fun _ => [EvWrite results run_data]);;
   (if truthy (results_plotting results)
    then call (save_gif results i) (fun _ => [EvGif results i])
    else ret tt);;
   ret {| run_data := run_data; mcts_loss := mcts_loss;
          mcts_coll := mcts_coll |})%M.

(** The [for] loop over the indices *)
Fixpoint trials_loop (indices : list Z) (st : loop_state) : M loop_state :=
  match indices with
  | [] => ret st
  | i :: rest => (st' <- trial i st;; trials_loop rest st')%M
  end.

End Loop.

Definition initial_state : loop_state :=
  {| run_data := []; mcts_loss := Atom (VInt 0); mcts_coll := Atom (VInt 0) |}.

(** [run_mcts], returning the final variables of the loop instead of
    [None], for the statements about [run_data] *)
Definition run_mcts_loop (env : handle) (config : option (gmap string value))
    (fig ax : option handle) (global_start_time : option string)
    (mcts_defaults : gmap string value) : M loop_state :=
  (let config := default mcts_defaults config in
   simulations <- lift (getattr config "simulations");;
   DEPTH <- lift (getattr config "depth");;
   num_runs <- lift (getattr config "trials");;
   iterations <- lift (getattr config "iterations");;
   plotting <- lift (getattr config "plotting");;
   let results :=
     {| results_method_name := "mcts";
        results_global_start_time := global_start_time;
        results_num_iters := num_runs;
        results_plotting := plotting |} in
   indices <- lift (range_from_1 num_runs);;
   trials_loop env iterations DEPTH plotting simulations fig ax results
     indices initial_state)%M.

Definition run_mcts (env : handle) (config : option (gmap string value))
    (fig ax : option handle) (global_start_time : option string)
    (mcts_defaults : gmap string value) : M unit :=
  (run_mcts_loop env config fig ax global_start_time mcts_defaults;;
   ret tt)%M.

(** [mcts]; [argv] is the command line *)
Definition mcts (args : option (gmap string (gmap string string)))
    (env : option handle) (mcts_defaults : gmap string value)
    (argv : list (flag * string)) : M unit :=
  (layers <- lift (resolve args mcts_defaults argv);;
   let config := layers.1 in
   let args := layers.2 in
   env <- match env with
          | Some e => ret e
          | None => call default_env (fun _ => [])
          end;;
   t <- clock;;
   let global_start_time := strftime t in
   match config with
   | Some c =>
       call (write_header_log c "mcts" global_start_time)
            (fun _ => [EvHeader c "mcts" global_start_time])
   | None => ret tt
   end;;
   run_mcts env (Some args) None None (Some global_start_time)
     mcts_defaults)%M.

End Program.

(** The attributes of the configuration that [run_mcts] reads, in the order
    of lines 51-55 *)
Definition attributes : list string :=
  ["simulations"; "depth"; "trials"; "iterations"; "plotting"].

(** ** What a run leaves in the trace *)

Section Trace.
Context `{Builtins} `{!Externals}.

(** What one completed turn of the loop produced. *)
Record turn : Type := {
  turn_index : Z;
  turn_result : list pyobj;
  turn_stamp : Z;
  turn_run_time : Z;
  turn_coll_rate : pyobj;
  turn_loss_rate : pyobj
}.

(** The entry appended to [run_data] (line 84) *)
Definition record_of (t : turn) : list pyobj :=
  [PTime (turn_stamp t); PDelta (turn_run_time t)] ++ drop 1 (turn_result t).

(** The rates of a turn are the quotients of lines 95-96. *)
Definition rates_ok (t : turn) : Prop :=
  exists c l,
    last_of (turn_result t) 6 = Ok c /\
    last_of (turn_result t) 7 = Ok l /\
    truediv c (turn_index t) = Ok (turn_coll_rate t) /\
    truediv l (turn_index t) = Ok (turn_loss_rate t).

(** [y] is the last element of [x]: of a list, or, of a string, its last
    character *)
Definition last_element (x y : pyobj) : Prop :=
  (exists l, x = PList (l ++ [y])) \/
  (exists s c,
     x = Atom (VStr (String.append s (String c EmptyString))) /\
     y = Atom (VStr (String c EmptyString))).

(** [y] is the last element of the element at position [n] of the
    payload: the cumulative count that the trial engine returned there *)
Definition last_at (result : list pyobj) (n : nat) (y : pyobj) : Prop :=
  exists x, result !! n = Some x /\ last_element x y.

(** The payload has no last element at position [n], and reading it raises
    [e]: [IndexError] when the payload is too short or the element there is
    an empty list or an empty string, [TypeError] when the element is
    neither a list nor a string. *)
Definition no_last_at (result : list pyobj) (n : nat) (e : exn) : Prop :=
  match result !! n with
  | None => e = IndexError
  | Some (PList l) => l = [] /\ e = IndexError
  | Some (Atom (VStr s)) => s = EmptyString /\ e = IndexError
  | Some _ => e = TypeError
  end.

(** The rates of a turn are the cumulative counts of the payload, at
    positions 6 and 7, divided by the index of the turn. *)
Definition rates_of_payload (t : turn) : Prop :=
  exists c l,
    last_at (turn_result t) 6 c /\
    last_at (turn_result t) 7 l /\
    truediv c (turn_index t) = Ok (turn_coll_rate t) /\
    truediv l (turn_index t) = Ok (turn_loss_rate t).

Section Shape.
Variables (env : handle) (iterations DEPTH plotting_flag simulations : value)
  (fig ax : option handle) (results : Results).

Definition report_events (i : Z) (coll_rate loss_rate : pyobj) : list event :=
  [EvPrint LDot; EvPrint LRule; EvPrint (LRuns i);
   EvPrint (LSimulations simulations); EvPrint (LDepth DEPTH);
   EvPrint (LCollisionRate coll_rate); EvPrint (LLossRate loss_rate);
   EvPrint LRule].

Definition sink_events (i : Z) (rd : list (list pyobj)) : list event :=
  EvWrite results rd ::
  (if truthy (results_plotting results) then [EvGif results i] else []).

Definition trial_event (i : Z) (out : res (list pyobj)) : event :=
  EvTrial i
    (call_args env iterations DEPTH plotting_flag simulations fig ax results)
    out.

(** The events of a completed turn that found [rd] in [run_data] *)
Definition turn_events (rd : list (list pyobj)) (t : turn) : list event :=
  trial_event (turn_index t) (Ok (turn_result t)) ::
  report_events (turn_index t) (turn_coll_rate t) (turn_loss_rate t) ++
  sink_events (turn_index t) (rd ++ [record_of t]).

Fixpoint turns_events (rd : list (list pyobj)) (ts : list turn) : list event :=
  match ts with
  | [] => []
  | t :: rest => turn_events rd t ++ turns_events (rd ++ [record_of t]) rest
  end.

(** The events of a turn at index [i] that raised [e]: the call of
    [mcts_trial], and, when that call returned, a part of the report and of
    the calls of the sink; a rate that was printed is the quotient of
    lines 95-96. *)
Definition broken_turn (rd : list (list pyobj)) (i : Z) (e : exn)
    (evs : list event) : Prop :=
  exists out rest,
    evs = trial_event i out :: rest /\
    match out with
    | Err e' => e' = e /\ rest = []
    | Ok result =>
        exists stamp run_time coll_rate loss_rate,
          rest `prefix_of`
            report_events i coll_rate loss_rate ++
            sink_events i
              (rd ++ [[PTime stamp; PDelta run_time] ++ drop 1 result]) /\
          (EvPrint (LCollisionRate coll_rate) ∈ rest ->
           exists c, last_of result 6 = Ok c /\ truediv c i = Ok coll_rate) /\
          (EvPrint (LLossRate loss_rate) ∈ rest ->
           exists l, last_of result 7 = Ok l /\ truediv l i = Ok loss_rate)
    end.

End Shape.

(** ** Projections of a trace *)

(** The calls of [mcts_trial]: loop index and outcome, in order *)
Definition trial_calls (tr : list event) : list (Z * res (list pyobj)) :=
  omap (fun ev => match ev with
                  | EvTrial i _ out => Some (i, out)
                  | _ => None
                  end) tr.

(** The arguments of the calls of [mcts_trial] *)
Definition trial_arguments (tr : list event) : list trial_args :=
  omap (fun ev => match ev with
                  | EvTrial _ a _ => Some a
                  | _ => None
                  end) tr.

(** The lines printed *)
Definition lines (tr : list event) : list line :=
  omap (fun ev => match ev with
                  | EvPrint l => Some l
                  | _ => None
                  end) tr.

(** The arguments of [write_dataframe], call after call *)
Definition writes (tr : list event) : list (list (list pyobj)) :=
  omap (fun ev => match ev with
                  | EvWrite _ rd => Some rd
                  | _ => None
                  end) tr.

Definition gifs (tr : list event) : list Z :=
  omap (fun ev => match ev with
                  | EvGif _ i => Some i
                  | _ => None
                  end) tr.

Definition headers (tr : list event) : list (configparser * string * string) :=
  omap (fun ev => match ev with
                  | EvHeader c m t => Some (c, m, t)
                  | _ => None
                  end) tr.

(** The header that [mcts] writes for a configuration *)
Definition header_of (config : option configparser) (start : string)
  : list event :=
  match config with
  | Some c => [EvHeader c "mcts" start]
  | None => []
  end.

(** The calls of the trial engine and of the sink, in the order of the
    trace *)
Inductive step : Type :=
| STrial (i : Z) (out : res (list pyobj))
| SWrite (rd : list (list pyobj))
| SGif (i : Z).

Definition steps (tr : list event) : list step :=
  omap (fun ev => match ev with
                  | EvTrial i _ out => Some (STrial i out)
                  | EvWrite _ rd => Some (SWrite rd)
                  | EvGif _ i => Some (SGif i)
                  | _ => None
                  end) tr.

(** The report of a completed turn, lines 90-97 *)
Definition report_of (simulations DEPTH : value) (t : turn) : list line :=
  [LDot; LRule; LRuns (turn_index t); LSimulations simulations; LDepth DEPTH;
   LCollisionRate (turn_coll_rate t); LLossRate (turn_loss_rate t); LRule].

(** The steps of a completed turn that leaves [rd] in [run_data] *)
Definition steps_of (plot : bool) (rd : list (list pyobj)) (t : turn)
  : list step :=
  STrial (turn_index t) (Ok (turn_result t)) :: SWrite rd ::
  (if plot then [SGif (turn_index t)] else []).

End Trace.

(** ** What is read from a command line and from a file *)

Section Layers.
Context `{Builtins}.

(** The argument of the last occurrence of a flag on the command line *)
Definition given (argv : list (flag * string)) (f : flag) : option string :=
  last (omap (fun o : flag * string =>
                if decide (o.1 = f) then Some o.2 else None) argv).

(** The entry of the file for a flag: line 113 reads section ["Defaults"]. *)
Definition in_file (args : option (gmap string (gmap string string)))
    (f : flag) : option string :=
  a ← args; section ← a !! "Defaults"; section !! dest f.

(** How a string of the file layer is read for a flag: [plotting] by
    [getboolean] (line 115), the others by the flag's [type]. *)
Definition read_file (f : flag) (s : string) : option value :=
  match f with
  | plotting => VBool <$> convert_to_boolean s
  | _ => get_value f s
  end.

(** A value of the type that [add_argument] declares for the flag *)
Definition has_type (f : flag) (v : value) : Prop :=
  match flag_type f, v with
  | TFloat, VFloat _ => True
  | TInt, VInt _ => True
  | TBool, VBool _ => True
  | _, _ => False
  end.

Definition is_string (v : value) : Prop :=
  match v with
  | VStr _ => True
  | _ => False
  end.

(** The string that [convert_defaults] converts for a flag, if any *)
Definition string_default (defaults : gmap string value) (f : flag)
  : option string :=
  match defaults !! dest f with
  | Some (VStr s) => Some s
  | _ => None
  end.

(** What [parse_known_args] leaves under a flag, from the defaults it was
    given and the command line *)
Definition flag_value (defaults : gmap string value)
    (argv : list (flag * string)) (f : flag) : option value :=
  match given argv f with
  | Some s => get_value f s
  | None =>
      match defaults !! dest f with
      | Some (VStr s) => get_value f s
      | Some v => Some v
      | None => Some VNone
      end
  end.

(** An argument of the command line, or a string default of a flag that
    was not given, that the flag's [type] refuses *)
Definition rejected (defaults : gmap string value)
    (argv : list (flag * string)) : Prop :=
  (exists f s, (f, s) ∈ argv /\ get_value f s = None) \/
  (exists f s, given argv f = None /\ string_default defaults f = Some s /\
     get_value f s = None).

(** The built-in defaults of the scenarios of section 8 of the
    specification; [lam], [col] and [los] stand for the floats [0.8],
    [-2.0] and [-2.0]. *)
Definition scenario_defaults (lam col los : F) : gmap string value :=
  list_to_map
    [("trials", VInt 3); ("simulations", VInt 10); ("depth", VInt 5);
     ("iterations", VInt 50); ("plotting", VBool false);
     ("lambda_arg", VFloat lam); ("collision", VFloat col);
     ("loss", VFloat los)].

(** The option [option] of the [DEFAULT] section that a built-in default
    gives: its key in lower case, its value as a string *)
Definition default_option (mcts_defaults : gmap string value)
    (option s : string) : Prop :=
  exists k v,
    mcts_defaults !! k = Some v /\ lower k = option /\ py_str v = Some s.

(** Two built-in defaults whose keys differ by the case of letters only *)
Definition same_option (mcts_defaults : gmap string value) (k1 k2 : string)
  : Prop :=
  k1 <> k2 /\ is_Some (mcts_defaults !! k1) /\ is_Some (mcts_defaults !! k2) /\
  lower k1 = lower k2.

(** Built-in defaults that [ConfigParser(defaults)] accepts: no value is
    [None] and no two keys are the same option *)
Definition accepted_defaults (mcts_defaults : gmap string value) : Prop :=
  (forall k, mcts_defaults !! k <> Some VNone) /\
  (forall k1 k2, ~ same_option mcts_defaults k1 k2).

(** The built-in defaults give nothing for a flag: without a file they are
    looked up by the name of the flag, with a file by their key in lower
    case. *)
Definition no_default (args : option (gmap string (gmap string string)))
    (mcts_defaults : gmap string value) (f : flag) : Prop :=
  match args with
  | None => mcts_defaults !! dest f = None
  | Some _ => forall k, lower k = dest f -> mcts_defaults !! k = None
  end.

(** [s] is one of the words that stand for the boolean [b], in any case of
    letters *)
Definition boolean_word (s : string) (b : bool) : Prop :=
  lower s ∈ (if b then ["1"; "yes"; "true"; "on"]
             else ["0"; "no"; "false"; "off"]).

(** The integer that a decimal numeral of the form [-?[0-9]+] denotes *)
Definition numeral (s : string) : option Z :=
  Z.of_int <$> NilZero.int_of_string s.

(** A string without the interpolation marker of [configparser] *)
Definition plain (s : string) : Prop :=
  "%"%char ∉ list_ascii_of_string s.

(** A file configuration and built-in defaults without interpolation
    marker: lines 112-115 then take every value as it is written. *)
Definition plain_file (a : gmap string (gmap string string)) : Prop :=
  forall name section k s,
    a !! name = Some section -> section !! k = Some s -> plain s.

Definition plain_defaults (mcts_defaults : gmap string value) : Prop :=
  forall k v s, mcts_defaults !! k = Some v -> py_str v = Some s -> plain s.

End Layers.

(** ** A small instance, for running the model

    Floats with integral values, written as integers; a clock that ticks at
    every reading; a trial engine that counts its calls and, when
    [fail_at = Some k], raises on the call number [k]; a sink that accepts
    everything. *)

Module Sample.

#[local] Instance builtins : Builtins := {|
  F := Z;
  py_float := fun s => Z.of_int <$> NilZero.int_of_string s;
  float_str := fun x => NilZero.string_of_int (Z.to_int x);
  float_truth := fun x => negb (x =? 0)%Z;
  py_int_ext := fun _ => None;
  dict_keys := elements;
  dict_keys_perm := fun _ => reflexivity _
|}.

Definition payload (n : Z) : list pyobj :=
  [Atom (VStr "mcts"); Atom (VInt n); Atom VNone; Atom VNone; Atom VNone;
   Atom VNone; PList [Atom (VInt 0); Atom (VInt n)];
   PList [Atom (VInt (2 * n))]].

Definition quotient (x : pyobj) (i : Z) : res pyobj :=
  match x with
  | Atom (VInt c) =>
      if (i =? 0)%Z then Err ZeroDivisionError
      else Ok (Atom (VFloat (c / i)))
  | _ => Err TypeError
  end.

Definition externals (fail_at : option Z) : Externals := {|
  World := Z * Z;
  now := fun w => (w.1, (w.1 + 1, w.2));
  strftime := int_str;
  mcts_trial := fun _ w =>
    let n := w.2 + 1 in
    (if bool_decide (fail_at = Some n) then Err (Raised 0) else Ok (payload n),
     (w.1, n));
  truediv := quotient;
  write_dataframe := fun _ _ w => (Ok tt, w);
  save_gif := fun _ _ w => (Ok tt, w);
  write_header_log := fun _ _ _ w => (Ok tt, w);
  default_env := fun w => (Ok 0%nat, w)
|}.

Definition start (fail_at : option Z) : @state builtins (externals fail_at) :=
  ((0, 0), []).

(** The defaults of the two scenarios of the specification, with integral
    floats in place of [0.8] and [-2.0] *)
Definition defaults : gmap string value :=
  list_to_map
    [("trials", VInt 3); ("simulations", VInt 10); ("depth", VInt 5);
     ("iterations", VInt 50); ("plotting", VBool false);
     ("lambda_arg", VFloat 1); ("collision", VFloat (-2));
     ("loss", VFloat (-2))].

(** Defaults that leave the three rewards out *)
Definition short_defaults : gmap string value :=
  list_to_map
    [("trials", VInt 1); ("simulations", VInt 10); ("depth", VInt 5);
     ("iterations", VInt 50); ("plotting", VBool false)].

(** A file whose section sets the number of trials *)
Definition file : gmap string (gmap string string) :=
  {[ "Defaults" := {[ "trials" := "3" ]} ]}.

(** A file with a boolean word and a number *)
Definition typed_file : gmap string (gmap string string) :=
  {[ "Defaults" := {[ "plotting" := "yes"; "depth" := "7" ]} ]}.

(** A file whose [plotting] is no boolean word *)
Definition bad_file : gmap string (gmap string string) :=
  {[ "Defaults" := {[ "plotting" := "maybe" ]} ]}.

(** The command line [--trials 1] *)
Definition one_trial : list (flag * string) := [(trials, "1")].

Definition ok_or {A : Type} (d : A) (r : res A) : A :=
  match r with
  | Ok a => a
  | Err _ => d
  end.

Definition is_ok {A : Type} (r : res A) : bool :=
  match r with
  | Ok _ => true
  | Err _ => false
  end.

Definition is_some {A : Type} (o : option A) : bool :=
  match o with
  | Some _ => true
  | None => false
  end.

(** [run_mcts] on the sample defaults: three trials *)
Definition loop3 : res loop_state * @state builtins (externals None) :=
  @run_mcts_loop builtins (externals None) 0%nat None None None None defaults
    (start None).

(** the same run with an engine that raises on its second call *)
Definition run_broken : res unit * @state builtins (externals (Some 2)) :=
  @run_mcts builtins (externals (Some 2)) 0%nat None None None None defaults
    (start (Some 2)).

(** [mcts] without file and command line, with [--trials 1 --plotting true],
    with the file and [--trials 1], and with the short defaults *)
Definition entry_default : res unit * @state builtins (externals None) :=
  @mcts builtins (externals None) None (Some 0%nat) defaults [] (start None).

Definition entry_cli : res unit * @state builtins (externals None) :=
  @mcts builtins (externals None) None (Some 0%nat) defaults
    [(trials, "1"); (plotting, "true")] (start None).

Definition entry_file : res unit * @state builtins (externals None) :=
  @mcts builtins (externals None) (Some file) (Some 0%nat) defaults one_trial
    (start None).

Definition entry_short : res unit * @state builtins (externals None) :=
  @mcts builtins (externals None) None (Some 0%nat) short_defaults []
    (start None).

(** A payload without the two lists of rates *)
Definition short_payload : list pyobj := [Atom (VStr "mcts"); Atom (VInt 1)].

(** The sample collaborators, with an engine that returns the short
    payload *)
Definition short_externals : Externals := {|
  World := Z * Z;
  now := fun w => (w.1, (w.1 + 1, w.2));
  strftime := int_str;
  mcts_trial := fun _ w => (Ok short_payload, (w.1, w.2 + 1));
  truediv := quotient;
  write_dataframe := fun _ _ w => (Ok tt, w);
  save_gif := fun _ _ w => (Ok tt, w);
  write_header_log := fun _ _ _ w => (Ok tt, w);
  default_env := fun w => (Ok 0%nat, w)
|}.

Definition short_start : @state builtins short_externals := ((0, 0), []).

(** The sample defaults without [iterations], without [trials], with no
    trial to run, with a string for [trials], with plotting on, with
    another [lambda_arg], with a key that no flag declares, and with a
    [None] *)
Definition no_iterations : gmap string value := delete "iterations" defaults.
Definition no_trials : gmap string value := delete "trials" defaults.
Definition zero_trials : gmap string value := <["trials" := VInt 0]> defaults.
Definition text_trials : gmap string value :=
  <["trials" := VStr "3"]> defaults.
Definition plotting_on : gmap string value :=
  <["plotting" := VBool true]> defaults.
Definition other_lambda : gmap string value :=
  <["lambda_arg" := VFloat 7]> defaults.
Definition seeded : gmap string value := <["seed" := VInt 7]> defaults.
Definition none_loss : gmap string value := <["loss" := VNone]> defaults.

(** The command line [--trials 1 --plotting False] *)
Definition plotting_false : list (flag * string) :=
  [(trials, "1"); (plotting, "False")].

(** The sample collaborators when the default environment cannot be built
    and the header log cannot be written *)
Definition faulty_externals : Externals := {|
  World := Z * Z;
  now := fun w => (w.1, (w.1 + 1, w.2));
  strftime := int_str;
  mcts_trial := fun _ w => (Ok (payload (w.2 + 1)), (w.1, w.2 + 1));
  truediv := quotient;
  write_dataframe := fun _ _ w => (Ok tt, w);
  save_gif := fun _ _ w => (Ok tt, w);
  write_header_log := fun _ _ _ w => (Err (Raised 2), w);
  default_env := fun w => (Err (Raised 1), w)
|}.

Definition faulty_start : @state builtins faulty_externals := ((0, 0), []).

(** The command line [--trials 1 --depth 4] *)
Definition depth_four : list (flag * string) := [(trials, "1"); (depth, "4")].

End Sample.

(** * Facts *)

Section MonadFacts.
Context `{Builtins} `{!Externals}.

Lemma bind_inv {A B : Type} (m : M A) (k : A -> M B) s r s' :
  bind m k s = (r, s') ->
  (exists a s1, m s = (Ok a, s1) /\ k a s1 = (r, s')) \/
  (exists e, m s = (Err e, s') /\ r = Err e).
Proof.
  unfold bind. destruct (m s) as [[a|e] s1]; intros Hrun.
  - left. eauto.
  - right. injection Hrun as <- <-. eauto.
Qed.

Lemma clock_inv s r s' :
  clock s = (r, s') -> (exists t, r = Ok t) /\ s'.2 = s.2.
Proof.
  unfold clock. destruct (now s.1) as [t w]. intros Hrun.
  injection Hrun as <- <-. eauto.
Qed.

Lemma call_inv {A : Type} (f : World -> res A * World) ev s r s' :
  call f ev s = (r, s') -> s'.2 = s.2 ++ ev r.
Proof.
  unfold call. destruct (f s.1) as [r0 w]. intros Hrun.
  by injection Hrun as <- <-.
Qed.

Lemma lift_inv {A : Type} (x : res A) s r s' :
  lift x s = (r, s') -> x = r /\ s' = s.
Proof. unfold lift. intros Hrun. by injection Hrun as <- <-. Qed.

Lemma print_inv l s r s' :
  print l s = (r, s') -> r = Ok tt /\ s'.2 = s.2 ++ [EvPrint l].
Proof. unfold print. intros Hrun. by injection Hrun as <- <-. Qed.

Lemma ret_inv {A : Type} (a : A) s r s' :
  ret a s = (r, s') -> r = Ok a /\ s' = s.
Proof. unfold ret. intros Hrun. by injection Hrun as <- <-. Qed.

End MonadFacts.

Ltac run_bind H :=
  let a := fresh "a" in
  let s1 := fresh "s" in
  let e := fresh "e" in
  let H1 := fresh "Hstep" in
  apply bind_inv in H as [(a & s1 & H1 & H) | (e & H1 & ->)].

(** [H : s1.2 = s.2 ++ evs] follows the trace; a step that adds [ev] to
    it or leaves it alone moves [H] to the new state. *)
Ltac trace_more H Hstep :=
  rewrite H in Hstep; clear H; rename Hstep into H;
  rewrite <- ?app_assoc in H; simpl in H.
Ltac trace_same H Hstep :=
  rewrite H in Hstep; clear H; rename Hstep into H.
Ltac rate_line :=
  let Hin := fresh "Hin" in
  intros Hin;
  first
    [ by eauto
    | exfalso;
      repeat (apply elem_of_cons in Hin as [Hin|Hin]; [discriminate Hin|]);
      by apply elem_of_nil in Hin ].
Ltac broken_here H result stamp run_time rc rl :=
  eexists; split; [exact H|];
  exists (Ok result); eexists; split; [reflexivity|];
  exists stamp, run_time, rc, rl;
  split; [eexists; simpl; reflexivity|]; split; rate_line.

Section LoopFacts.
Context `{Builtins} `{!Externals}.
Variables (env : handle) (iterations DEPTH plotting_flag simulations : value)
  (fig ax : option handle) (results : Results).

Local Abbreviation trial' := (trial env iterations DEPTH plotting_flag simulations fig ax results).

Lemma trial_spec i st s r s' :
  trial' i st s = (r, s') ->
  match r with
  | Ok st' =>
      exists t, turn_index t = i /\ rates_ok t /\
        run_data st' = run_data st ++ [record_of t] /\
        s'.2 = s.2 ++ turn_events env iterations DEPTH plotting_flag simulations fig ax results (run_data st) t
  | Err e =>
      exists evs, s'.2 = s.2 ++ evs /\
        broken_turn env iterations DEPTH plotting_flag simulations fig ax results (run_data st) i e evs
  end.
Proof.
  unfold trial. intros Hrun.
  run_bind Hrun; [|by apply clock_inv in Hstep as [[? ?] _]].
  apply clock_inv in Hstep as [_ Htr]. rename a into t1.
  run_bind Hrun.
  { apply call_inv in Hstep. rewrite Htr in Hstep. clear Htr. rename Hstep into Htr.
    rename a into result.
    run_bind Hrun; [|by apply clock_inv in Hstep as [[? ?] _]].
    apply clock_inv in Hstep as [_ Hstep]; trace_same Htr Hstep. rename a into t2.
    run_bind Hrun; [|by apply clock_inv in Hstep as [[? ?] _]].
    apply clock_inv in Hstep as [_ Hstep]; trace_same Htr Hstep. rename a into t3.
    run_bind Hrun; apply lift_inv in Hstep as [Hc ->];
      [|broken_here Htr result t3 (t2 - t1) (Atom VNone) (Atom VNone)].
    rename a into c.
    run_bind Hrun; apply lift_inv in Hstep as [Hl ->];
      [|broken_here Htr result t3 (t2 - t1) (Atom VNone) (Atom VNone)].
    rename a into l.
    do 5 (run_bind Hrun; apply print_inv in Hstep as [? Hstep]; [|done];
          trace_more Htr Hstep).
    run_bind Hrun; apply lift_inv in Hstep as [Hrc ->];
      [|broken_here Htr result t3 (t2 - t1) (Atom VNone) (Atom VNone)].
    rename a4 into rc.
    run_bind Hrun; apply print_inv in Hstep as [? Hstep]; [|done];
      trace_more Htr Hstep.
    run_bind Hrun; apply lift_inv in Hstep as [Hrl ->];
      [|broken_here Htr result t3 (t2 - t1) rc (Atom VNone)].
    rename a5 into rl.
    do 2 (run_bind Hrun; apply print_inv in Hstep as [? Hstep]; [|done];
          trace_more Htr Hstep).
    run_bind Hrun; apply call_inv in Hstep; trace_more Htr Hstep;
      [|unfold sink_events; broken_here Htr result t3 (t2 - t1) rc rl].
    run_bind Hrun.
    - apply ret_inv in Hrun as [-> ->].
      exists {| turn_index := i; turn_result := result; turn_stamp := t3;
                turn_run_time := t2 - t1; turn_coll_rate := rc;
                turn_loss_rate := rl |}.
      split; [done|]. split; [by exists c, l|]. split; [done|].
      unfold turn_events, sink_events, report_events, trial_event; simpl.
      destruct (truthy (results_plotting results)).
      + apply call_inv in Hstep. trace_more Htr Hstep. done.
      + apply ret_inv in Hstep as [_ ->]. done.
    - unfold broken_turn, sink_events. destruct (truthy (results_plotting results)).
      + apply call_inv in Hstep. trace_more Htr Hstep.
        broken_here Htr result t3 (t2 - t1) rc rl.
      + by apply ret_inv in Hstep as [? _]. }
  apply call_inv in Hstep. rewrite Htr in Hstep.
  eexists. split; [exact Hstep|]. by exists (Err e), [].
Qed.

Local Abbreviation loop' := (trials_loop env iterations DEPTH plotting_flag simulations fig ax results).
Local Abbreviation turns_events' := (turns_events env iterations DEPTH plotting_flag simulations fig ax results).
Local Abbreviation broken_turn' := (broken_turn env iterations DEPTH plotting_flag simulations fig ax results).
Local Abbreviation args' := (call_args env iterations DEPTH plotting_flag simulations fig ax results).
Local Abbreviation trial_event' := (trial_event env iterations DEPTH plotting_flag simulations fig ax results).
Local Abbreviation report_events' := (report_events DEPTH simulations).
Local Abbreviation sink_events' := (sink_events results).

Lemma trials_loop_spec indices : forall st s r s',
  loop' indices st s = (r, s') ->
  exists ts tail,
    s'.2 = s.2 ++ turns_events' (run_data st) ts ++ tail /\
    turn_index <$> ts = take (length ts) indices /\
    Forall rates_ok ts /\
    match r with
    | Ok st' =>
        length ts = length indices /\ tail = [] /\
        run_data st' = run_data st ++ (record_of <$> ts)
    | Err e =>
        exists k, indices !! length ts = Some k /\
          broken_turn' (run_data st ++ (record_of <$> ts)) k e tail
    end.
Proof.
  induction indices as [|i rest IH]; intros st s r s' Hrun; simpl in Hrun.
  - apply ret_inv in Hrun as [-> ->]. exists [], []. simpl.
    rewrite !app_nil_r. done.
  - run_bind Hrun.
    + apply trial_spec in Hstep as (t & Hi & Hrates & Hrd & Htr).
      apply IH in Hrun as (ts & tail & Htr' & Hidx & Hall & Hres).
      exists (t :: ts), tail. split.
      { simpl. rewrite Htr', Htr, Hrd, <- !app_assoc. done. }
      split; [by rewrite fmap_cons, Hi, Hidx|]. split; [by constructor|].
      destruct r as [st'|e].
      * destruct Hres as (Hlen & -> & Hfin).
        rewrite Hfin, Hrd, <- app_assoc. simpl. by rewrite Hlen.
      * destruct Hres as (k & Hk & Hbr). exists k. split; [done|].
        by rewrite Hrd, <- app_assoc in Hbr.
    + apply trial_spec in Hstep as (evs & Htr & Hbr).
      exists [], evs. simpl. rewrite app_nil_r. split; [done|].
      split; [done|]. split; [constructor|]. exists i. done.
Qed.

Lemma trial_calls_turns rd ts :
  trial_calls (turns_events' rd ts) =
  (fun t => (turn_index t, Ok (turn_result t))) <$> ts.
Proof.
  revert rd. induction ts as [|t ts IH]; intros rd; [done|].
  simpl. unfold trial_calls in *. rewrite omap_app, IH.
  unfold turn_events, sink_events. simpl.
  by destruct (truthy (results_plotting results)).
Qed.

Lemma trial_arguments_turns rd ts :
  trial_arguments (turns_events' rd ts) = (fun _ => args') <$> ts.
Proof.
  revert rd. induction ts as [|t ts IH]; intros rd; [done|].
  simpl. unfold trial_arguments in *. rewrite omap_app, IH.
  unfold turn_events, sink_events. simpl.
  by destruct (truthy (results_plotting results)).
Qed.

Lemma lines_turns rd ts :
  lines (turns_events' rd ts) = ts ≫= report_of simulations DEPTH.
Proof.
  revert rd. induction ts as [|t ts IH]; intros rd; [done|].
  simpl. unfold lines in *. rewrite omap_app, IH.
  unfold turn_events, sink_events. simpl.
  by destruct (truthy (results_plotting results)).
Qed.

Lemma writes_turns rd ts :
  writes (turns_events' rd ts) =
  (fun n => rd ++ take n (record_of <$> ts)) <$> seq 1 (length ts).
Proof.
  revert rd. induction ts as [|t ts IH]; intros rd; [done|].
  simpl. unfold writes in *. rewrite omap_app, IH.
  unfold turn_events, sink_events. simpl.
  rewrite <- (fmap_S_seq 1), <- list_fmap_compose.
  destruct (truthy (results_plotting results)); simpl; f_equal;
    apply list_fmap_ext; intros ? n _; simpl; by rewrite <- app_assoc.
Qed.

Lemma gifs_turns rd ts :
  gifs (turns_events' rd ts) =
  if truthy (results_plotting results) then turn_index <$> ts else [].
Proof.
  revert rd. induction ts as [|t ts IH]; intros rd.
  { by destruct (truthy _). }
  simpl. unfold gifs in *. rewrite omap_app, IH.
  unfold turn_events, sink_events. simpl.
  by destruct (truthy (results_plotting results)).
Qed.

Lemma headers_turns rd ts : headers (turns_events' rd ts) = [].
Proof.
  revert rd. induction ts as [|t ts IH]; intros rd; [done|].
  simpl. unfold headers in *. rewrite omap_app, IH.
  unfold turn_events, sink_events. simpl.
  by destruct (truthy (results_plotting results)).
Qed.


Lemma steps_turns rd ts :
  steps (turns_events' rd ts) =
  mjoin (imap (fun j t =>
                 steps_of (truthy (results_plotting results))
                   (rd ++ take (S j) (record_of <$> ts)) t) ts).
Proof.
  revert rd. induction ts as [|t ts IH]; intros rd; [done|].
  simpl. unfold steps in *. rewrite omap_app, IH.
  unfold turn_events, sink_events, steps_of. simpl.
  assert (imap (fun j t0 =>
                  STrial (turn_index t0) (Ok (turn_result t0))
                  :: SWrite ((rd ++ [record_of t]) ++ take (S j) (record_of <$> ts))
                  :: (if truthy (results_plotting results)
                      then [SGif (turn_index t0)] else [])) ts =
          imap ((fun j t0 =>
                  STrial (turn_index t0) (Ok (turn_result t0))
                  :: SWrite (rd ++ take (S j) (record_of t :: (record_of <$> ts)))
                  :: (if truthy (results_plotting results)
                      then [SGif (turn_index t0)] else [])) ∘ S) ts) as ->.
  { apply imap_ext. intros j t0 _. simpl. by rewrite <- app_assoc. }
  by destruct (truthy (results_plotting results)).
Qed.

Lemma omap_cons {A B : Type} (f : A -> option B) (x : A) (l : list A) :
  omap f (x :: l) = option_list (f x) ++ omap f l.
Proof. simpl. by destruct (f x). Qed.

(** What the events of a turn that raised hold *)
Lemma broken_turn_inv rd k e tail :
  broken_turn' rd k e tail ->
  exists out,
    trial_calls tail = [(k, out)] /\
    trial_arguments tail = [args'] /\
    headers tail = [] /\
    (forall e', out = Err e' -> e' = e /\ tail = [trial_event' k out]) /\
    (writes tail = [] \/ exists record, writes tail = [rd ++ [record]]) /\
    (forall rc, LCollisionRate rc ∈ lines tail ->
       exists result c,
         out = Ok result /\ last_of result 6 = Ok c /\ truediv c k = Ok rc) /\
    (forall rl, LLossRate rl ∈ lines tail ->
       exists result l,
         out = Ok result /\ last_of result 7 = Ok l /\ truediv l k = Ok rl).
Proof.
  intros (out & rest & -> & Hout). exists out.
  destruct out as [result|e0].
  - destruct Hout as (stamp & run_time & rc0 & rl0 & [more Hmore] & Hrc & Hrl).
    assert (trial_calls rest = [] /\ trial_arguments rest = [] /\
            headers rest = []) as (Hcalls & Hargs & Hhead).
    { pose proof (f_equal trial_calls Hmore) as H1.
      pose proof (f_equal trial_arguments Hmore) as H2.
      pose proof (f_equal headers Hmore) as H3.
      unfold trial_calls, trial_arguments, headers, sink_events in *.
      rewrite !omap_app in H1; rewrite !omap_app in H2; rewrite !omap_app in H3.
      destruct (truthy (results_plotting results)); simpl in H1, H2, H3;
        symmetry in H1, H2, H3;
        apply app_eq_nil in H1 as [-> _]; apply app_eq_nil in H2 as [-> _];
        apply app_eq_nil in H3 as [-> _]; done. }
    split; [unfold trial_calls in *; by rewrite omap_cons, Hcalls|].
    split; [unfold trial_arguments in *; by rewrite omap_cons, Hargs|].
    split; [unfold headers in *; by rewrite omap_cons, Hhead|].
    split; [done|]. split.
    { pose proof (f_equal writes Hmore) as H1.
      unfold writes, sink_events in *. rewrite !omap_app in H1.
      rewrite omap_cons. unfold trial_event at 1. simpl.
      destruct (omap _ rest) as [|w ws]; [by left|right].
      destruct (truthy (results_plotting results)); simpl in H1;
        injection H1 as <- H1; symmetry in H1;
        apply app_eq_nil in H1 as [-> _]; eauto. }
    assert (forall l, l ∈ lines rest -> EvPrint l ∈ rest) as Hlines.
    { intros l. unfold lines. rewrite list_elem_of_omap.
      intros (ev & Hev & Heq). destruct ev; try discriminate.
      by injection Heq as <-. }
    assert (forall ev, ev ∈ rest ->
              ev ∈ report_events' k rc0 rl0 ++
                   sink_events' k
                     (rd ++ [[PTime stamp; PDelta run_time] ++ drop 1 result]))
      as Hin.
    { intros ev Hev. rewrite Hmore. apply elem_of_app. by left. }
    split.
    + intros rc Hl. unfold lines in Hl. simpl in Hl.
      apply Hlines in Hl. pose proof (Hin _ Hl) as Hl'.
      assert (rc = rc0) as ->.
      { unfold report_events, sink_events in Hl'.
        destruct (truthy (results_plotting results)); simpl in Hl';
          repeat (apply elem_of_cons in Hl' as [Hl'|Hl'];
                  [by (discriminate Hl' || injection Hl')|]);
          by apply elem_of_nil in Hl'. }
      destruct (Hrc Hl) as (c & ? & ?). eauto.
    + intros rl Hl. unfold lines in Hl. simpl in Hl.
      apply Hlines in Hl. pose proof (Hin _ Hl) as Hl'.
      assert (rl = rl0) as ->.
      { unfold report_events, sink_events in Hl'.
        destruct (truthy (results_plotting results)); simpl in Hl';
          repeat (apply elem_of_cons in Hl' as [Hl'|Hl'];
                  [by (discriminate Hl' || injection Hl')|]);
          by apply elem_of_nil in Hl'. }
      destruct (Hrl Hl) as (l & ? & ?). eauto.
  - destruct Hout as [-> ->].
    repeat (split; [done|]).
    split; [intros e' Heq; by injection Heq as <-|].
    split; [by left|].
    split; intros ? Hl; by apply elem_of_nil in Hl.
Qed.

End LoopFacts.

Section RunFacts.
Context `{Builtins} `{!Externals}.

Lemma take_seqZ_1 (n : nat) (N : Z) :
  (n <= Z.to_nat N)%nat -> take n (seqZ 1 N) = seqZ 1 (Z.of_nat n).
Proof.
  intros Hn. unfold seqZ. rewrite <- fmap_take, take_seq, Nat2Z.id.
  by rewrite Nat.min_l.
Qed.

Lemma seqZ_1_max (n : nat) (N : Z) :
  Z.of_nat n = Z.max 0 N -> seqZ 1 (Z.of_nat n) = seqZ 1 N.
Proof.
  intros Hn. destruct (decide (0 <= N)).
  - f_equal. lia.
  - rewrite !seqZ_nil by lia. done.
Qed.

(** [run_mcts] either stops before the loop, with the trace as it was, or
    enters the loop with the five attributes of the configuration. *)
Lemma run_mcts_loop_inv env config fig ax gst mcts_defaults s r s' :
  run_mcts_loop env config fig ax gst mcts_defaults s = (r, s') ->
  (exists e, r = Err e /\ s' = s) \/
  exists sims d nr it pl indices,
    getattr (default mcts_defaults config) "simulations" = Ok sims /\
    getattr (default mcts_defaults config) "depth" = Ok d /\
    getattr (default mcts_defaults config) "trials" = Ok nr /\
    getattr (default mcts_defaults config) "iterations" = Ok it /\
    getattr (default mcts_defaults config) "plotting" = Ok pl /\
    range_from_1 nr = Ok indices /\
    trials_loop env it d pl sims fig ax
      {| results_method_name := "mcts"; results_global_start_time := gst;
         results_num_iters := nr; results_plotting := pl |}
      indices initial_state s = (r, s').
Proof.
  unfold run_mcts_loop. intros Hrun.
  do 6 (run_bind Hrun; apply lift_inv in Hstep as [? ->]; [|left; eauto]).
  right. do 6 eexists. eauto 10.
Qed.

Lemma run_mcts_loop_trace env config fig ax gst mcts_defaults N s r s' :
  run_mcts_loop env config fig ax gst mcts_defaults s = (r, s') ->
  default mcts_defaults config !! "trials" = Some (VInt N) ->
  (exists e, r = Err e /\ s' = s) \/
  exists sims d it pl,
    getattr (default mcts_defaults config) "simulations" = Ok sims /\
    getattr (default mcts_defaults config) "depth" = Ok d /\
    getattr (default mcts_defaults config) "iterations" = Ok it /\
    getattr (default mcts_defaults config) "plotting" = Ok pl /\
    let R := {| results_method_name := "mcts";
                results_global_start_time := gst;
                results_num_iters := VInt N; results_plotting := pl |} in
    exists ts tail,
      s'.2 = s.2 ++ turns_events env it d pl sims fig ax R [] ts ++ tail /\
      turn_index <$> ts = seqZ 1 (Z.of_nat (length ts)) /\
      Z.of_nat (length ts) <= Z.max 0 N /\
      Forall rates_ok ts /\
      match r with
      | Ok st' =>
          Z.of_nat (length ts) = Z.max 0 N /\ tail = [] /\
          run_data st' = record_of <$> ts
      | Err e =>
          Z.of_nat (length ts) < N /\
          broken_turn env it d pl sims fig ax R (record_of <$> ts)
            (1 + Z.of_nat (length ts)) e tail
      end.
Proof.
  intros Hrun HN.
  apply run_mcts_loop_inv in Hrun
    as [?|(sims & d & nr & it & pl & idx & ? & ? & Hnr & ? & ? & Hidx & Hrun)];
    [by left|right].
  unfold getattr in Hnr. rewrite HN in Hnr. injection Hnr as <-.
  simpl in Hidx. injection Hidx as <-.
  exists sims, d, it, pl. do 4 (split; [done|]). simpl.
  apply trials_loop_spec in Hrun as (ts & tail & Htr & Hts & Hrates & Hr).
  simpl in Htr, Hr.
  assert (length ts <= Z.to_nat N)%nat as Hlen.
  { apply (f_equal length) in Hts.
    rewrite length_fmap, length_take, length_seqZ in Hts. lia. }
  exists ts, tail. split; [done|]. split; [by rewrite Hts, take_seqZ_1|].
  split; [lia|]. split; [done|].
  destruct r as [st'|e].
  - destruct Hr as (Hl & -> & Hrd). rewrite length_seqZ in Hl. split; [lia|done].
  - destruct Hr as (k & Hk & Hbr). apply lookup_seqZ in Hk as [-> ?]. done.
Qed.

End RunFacts.

Section RunViews.
Context `{Builtins} `{!Externals}.

(** [run_mcts] is [run_mcts_loop] with the final variables dropped. *)
Lemma run_mcts_inv env config fig ax gst mcts_defaults s r s' :
  run_mcts env config fig ax gst mcts_defaults s = (r, s') ->
  exists r0,
    run_mcts_loop env config fig ax gst mcts_defaults s = (r0, s') /\
    match r0 with
    | Ok _ => r = Ok tt
    | Err e => r = Err e
    end.
Proof.
  unfold run_mcts. intros Hrun. run_bind Hrun.
  - apply ret_inv in Hrun as [-> ->]. by exists (Ok a).
  - by exists (Err e).
Qed.

(** Snapshots that are the prefixes of one list, in order of length, grow
    by one entry from one to the next. *)
Lemma snapshots_chain {A : Type} (full : list A) (ws : list (list A)) :
  ws `prefix_of` ((fun n => take n full) <$> seq 1 (length full)) ->
  forall j a b,
    ws !! j = Some a -> ws !! S j = Some b ->
    a `prefix_of` b /\ length b = S (length a).
Proof.
  intros [more Hws] j a b Ha Hb.
  assert (forall i x, ws !! i = Some x ->
            x = take (S i) full /\ (S i <= length full)%nat) as Hat.
  { intros i x Hx.
    pose proof (lookup_app_l_Some _ more _ _ Hx) as Hx'.
    rewrite <- Hws, list_lookup_fmap in Hx'.
    destruct (seq 1 (length full) !! i) as [n|] eqn:Hn; [|done].
    apply lookup_seq in Hn as [-> ?]. injection Hx' as <-. split; [done|lia]. }
  apply Hat in Ha as [-> ?]. apply Hat in Hb as [-> ?].
  split.
  - exists (take 1 (drop (S j) full)).
    by rewrite take_take_drop, Nat.add_1_r.
  - rewrite !length_take. lia.
Qed.

(** The snapshots handed to [write_dataframe] during a run *)
Lemma run_writes env config fig ax gst mcts_defaults N s r s' new :
  run_mcts_loop env config fig ax gst mcts_defaults s = (r, s') ->
  default mcts_defaults config !! "trials" = Some (VInt N) ->
  s'.2 = s.2 ++ new ->
  exists full,
    writes new `prefix_of` ((fun n => take n full) <$> seq 1 (length full)).
Proof.
  intros Hrun HN Hnew.
  destruct (run_mcts_loop_trace _ _ _ _ _ _ _ _ _ _ Hrun HN)
    as [(e & -> & ->)|(sims & d & it & pl & _ & _ & _ & _ & ts & tail & Htr & _ & _ & _ & Hr)].
  - assert (new = []) as ->.
    { apply (app_inv_head s.2). by rewrite app_nil_r. }
    exists []. apply prefix_nil.
  - rewrite Hnew in Htr. apply app_inv_head in Htr as ->.
    unfold writes. rewrite omap_app. fold (writes tail).
    pose proof (writes_turns env it d pl sims fig ax
      {| results_method_name := "mcts"; results_global_start_time := gst;
         results_num_iters := VInt N; results_plotting := pl |} [] ts) as Hw.
    unfold writes in Hw at 1. rewrite Hw. simpl.
    assert (writes tail = [] \/
            exists record, writes tail = [(record_of <$> ts) ++ [record]])
      as [->|[record ->]].
    { destruct r as [st'|e].
      - destruct Hr as (_ & -> & _). by left.
      - destruct Hr as [_ Hbr].
        apply broken_turn_inv in Hbr as (out & _ & _ & _ & _ & Hw' & _).
        done. }
    + exists (record_of <$> ts). by rewrite app_nil_r, length_fmap.
    + exists ((record_of <$> ts) ++ [record]).
      rewrite length_app, length_fmap. simpl.
      rewrite Nat.add_1_r, seq_S, fmap_app. simpl.
      rewrite (take_ge (_ ++ _)) by (rewrite length_app, length_fmap; simpl; lia).
      apply prefix_app_alt; [|done].
      apply list_fmap_ext. intros ? n Hn. apply lookup_seq in Hn as [-> ?].
      rewrite take_app_le by (rewrite length_fmap; lia). done.
Qed.

End RunViews.

(** * The trial loop *)

Section PayloadFacts.
Context `{Builtins} `{!Externals}.

Lemma string_last_app s c :
  string_last (String.append s (String c EmptyString)) = Some c.
Proof.
  induction s as [|a s IH]; [done|]. simpl.
  destruct (String.append s (String c EmptyString)) eqn:Hs; [|done].
  by destruct s.
Qed.

Lemma string_last_inv s c :
  string_last s = Some c -> exists r, s = String.append r (String c EmptyString).
Proof.
  induction s as [|a s IH]; [done|]. simpl. destruct s as [|b s'].
  - intros [= ->]. by exists EmptyString.
  - intros Hs. destruct (IH Hs) as [r Hr]. exists (String a r).
    change (String a (String b s') = String a (String.append r (String c EmptyString))).
    by rewrite <- Hr.
Qed.

(** [result[n][-1]] reads the last element at position [n], and nothing
    else. *)
Lemma last_of_ok result n y : last_of result n = Ok y <-> last_at result n y.
Proof.
  unfold last_of, res_bind, getitem, last_item, last_at, last_element. split.
  - destruct (result !! n) as [x|]; [|done]. intros Hy. exists x.
    split; [done|]. destruct x as [[| | | |w]|l| |]; try done.
    + destruct (string_last w) as [c|] eqn:Hw; [|done]. injection Hy as <-.
      apply string_last_inv in Hw as [r ->]. right. by exists r, c.
    + destruct (last l) as [z|] eqn:Hl; [|done]. injection Hy as <-.
      apply last_Some in Hl as [l' ->]. left. by exists l'.
  - intros (x & -> & [[l ->]|(w & c & -> & ->)]).
    + by rewrite last_snoc.
    + by rewrite string_last_app.
Qed.

(** When it raises, the payload has no last element there. *)
Lemma last_of_err result n e :
  last_of result n = Err e -> no_last_at result n e.
Proof.
  unfold last_of, res_bind, getitem, last_item, no_last_at.
  destruct (result !! n) as [[[| | | |w]|l| |]|]; try by intros [= <-].
  - destruct w as [|a w]; [by intros [= <-]|].
    destruct (string_last (String a w)) eqn:Hw; [done|].
    exfalso. clear -Hw. revert a Hw.
    induction w as [|b w IH]; intros a Hw; [done|]. by apply (IH b).
  - destruct l as [|z l]; [by intros [= <-]|].
    destruct (last (z :: l)) eqn:Hl; [done|].
    by apply last_None in Hl.
Qed.

Lemma rates_ok_payload t : rates_ok t -> rates_of_payload t.
Proof.
  intros (c & l & Hc & Hl & ? & ?). exists c, l.
  by rewrite <- !last_of_ok.
Qed.

End PayloadFacts.

Section TrialLoop.
Context `{Builtins} `{!Externals}.

(** C2. For every N >= 1, when the loop of [run_mcts] has completed its N
    trials, [run_data] holds exactly N entries, the n-th built from what the
    n-th call of [mcts_trial] returned (the calls carry the indices 1..N in
    increasing order); what the sink was handed after the n-th trial is the
    list of the first n entries of the final [run_data], so no entry was
    moved, dropped or changed after it was appended. *)
Theorem run_data_one_entry_per_trial
    env config fig ax gst mcts_defaults N s st' s' new :
  1 <= N ->
  default mcts_defaults config !! "trials" = Some (VInt N) ->
  run_mcts_loop env config fig ax gst mcts_defaults s = (Ok st', s') ->
  s'.2 = s.2 ++ new ->
  length (run_data st') = Z.to_nat N /\
  exists ts : list turn,
    run_data st' = record_of <$> ts /\
    turn_index <$> ts = seqZ 1 N /\
    trial_calls new = (fun t => (turn_index t, Ok (turn_result t))) <$> ts /\
    writes new = (fun n => take n (run_data st')) <$> seq 1 (Z.to_nat N).
Proof.
  intros HN Htrials Hrun Hnew.
  destruct (run_mcts_loop_trace _ _ _ _ _ _ _ _ _ _ Hrun Htrials)
    as [(e & ? & _)|(sims & d & it & pl & _ & _ & _ & _ & ts & tail & Htr
                     & Hidx & _ & _ & Hlen & -> & Hrd)]; [done|].
  rewrite Hnew, app_nil_r in Htr. apply app_inv_head in Htr as ->.
  assert (length ts = Z.to_nat N) as Hl by lia.
  split; [by rewrite Hrd, length_fmap|].
  exists ts. split; [done|].
  split; [rewrite Hidx; f_equal; lia|].
  split; [apply trial_calls_turns|].
  by rewrite writes_turns, Hrd, Hl.
Qed.


(** C4. In a run of [run_mcts] over N trials, the report printed after the
    trial of index i shows [c / i] and [l / i], where [c] and [l] are the
    cumulative counts of the payload that [mcts_trial] returned at index i:
    the last elements of the lists at its positions 6 and 7. Every index i,
    hence every divisor, lies in 1..N. This holds for the completed turns
    and for the rates that a turn printed before it raised. *)
Theorem rates_divide_by_trial_index
    env config fig ax gst mcts_defaults N s r s' new :
  default mcts_defaults config !! "trials" = Some (VInt N) ->
  run_mcts_loop env config fig ax gst mcts_defaults s = (r, s') ->
  s'.2 = s.2 ++ new ->
  exists sims d ts rest,
    lines new = (ts ≫= report_of sims d) ++ rest /\
    (fun t => (turn_index t, Ok (turn_result t))) <$> ts
      `prefix_of` trial_calls new /\
    turn_index <$> ts = seqZ 1 (Z.of_nat (length ts)) /\
    Forall (fun t => rates_of_payload t /\ 1 <= turn_index t <= N) ts /\
    (forall st', r = Ok st' -> rest = [] /\ length ts = Z.to_nat N) /\
    let k := 1 + Z.of_nat (length ts) in
    (forall rc, LCollisionRate rc ∈ rest ->
       exists result c,
         (k, Ok result) ∈ trial_calls new /\ 1 <= k <= N /\
         last_at result 6 c /\ truediv c k = Ok rc) /\
    (forall rl, LLossRate rl ∈ rest ->
       exists result l,
         (k, Ok result) ∈ trial_calls new /\ 1 <= k <= N /\
         last_at result 7 l /\ truediv l k = Ok rl).
Proof.
  intros Htrials Hrun Hnew.
  destruct (run_mcts_loop_trace _ _ _ _ _ _ _ _ _ _ Hrun Htrials)
    as [(e & -> & ->)|(sims & d & it & pl & _ & _ & _ & _ & ts & tail & Htr
                       & Hidx & Hle & Hrates & Hr)].
  { assert (new = []) as ->.
    { apply (app_inv_head s.2). by rewrite app_nil_r. }
    exists VNone, VNone, [], []. simpl.
    split; [done|]. split; [apply prefix_nil|]. split; [done|].
    split; [constructor|]. split; [done|].
    split; intros ? Hin; by apply elem_of_nil in Hin. }
  rewrite Hnew in Htr. apply app_inv_head in Htr as ->.
  exists sims, d, ts, (lines tail).
  split; [unfold lines; rewrite omap_app; f_equal; apply lines_turns|].
  split.
  { unfold trial_calls. rewrite omap_app. eexists.
    f_equal. apply trial_calls_turns. }
  split; [done|]. split.
  { apply Forall_forall. intros t Ht. split.
    - apply rates_ok_payload. by eapply Forall_forall in Hrates.
    - assert (turn_index t ∈ seqZ 1 (Z.of_nat (length ts))) as Hin.
      { rewrite <- Hidx. by apply list_elem_of_fmap_2. }
      apply elem_of_seqZ in Hin. lia. }
  destruct r as [st'|e].
  - destruct Hr as (Hlen & -> & _). split; [intros _ _; split; [done|lia]|].
    split; intros ? Hin; by apply elem_of_nil in Hin.
  - destruct Hr as (Hlt & Hbr). split; [done|].
    apply broken_turn_inv in Hbr
      as (out & Hcalls & _ & _ & _ & _ & Hrc & Hrl).
    assert (forall result, out = Ok result ->
              (1 + Z.of_nat (length ts), Ok result) ∈
                trial_calls (turns_events env it d pl sims fig ax
                   {| results_method_name := "mcts";
                      results_global_start_time := gst;
                      results_num_iters := VInt N;
                      results_plotting := pl |} [] ts ++ tail)) as Hin.
    { intros result ->. unfold trial_calls. rewrite omap_app.
      fold (trial_calls tail). rewrite Hcalls.
      apply elem_of_app. right. by apply list_elem_of_singleton. }
    split.
    + intros rc Hl. destruct (Hrc _ Hl) as (result & c & -> & Hc & ?).
      apply last_of_ok in Hc.
      exists result, c. split; [by apply Hin|]. split; [lia|done].
    + intros rl Hl. destruct (Hrl _ Hl) as (result & l & -> & Hc & ?).
      apply last_of_ok in Hc.
      exists result, l. split; [by apply Hin|]. split; [lia|done].
Qed.

End TrialLoop.

Section TrialCalls.
Context `{Builtins} `{!Externals}.


End TrialCalls.

(** * Configuration layers *)

Section ParserFacts.
Context `{Builtins}.

Lemma dest_inj f g : dest f = dest g -> f = g.
Proof. destruct f, g; simpl; intros Heq; first [done | discriminate Heq]. Qed.

Lemma given_nil f : given [] f = None.
Proof. done. Qed.

Lemma given_cons g s argv f :
  given ((g, s) :: argv) f =
  match given argv f with
  | Some x => Some x
  | None => if decide (g = f) then Some s else None
  end.
Proof.
  unfold given. rewrite omap_cons. simpl.
  destruct (decide (g = f)); simpl.
  - destruct (omap _ argv) as [|x l]; [done|].
    rewrite !last_cons. by destruct (last l).
  - by destruct (last (omap _ argv)).
Qed.

Lemma seen_given argv f : seen argv f = false <-> given argv f = None.
Proof.
  unfold seen. rewrite bool_decide_eq_false, eq_None_not_Some.
  assert (f ∈ argv.*1 <-> is_Some (given argv f)) as Hiff; [|by rewrite Hiff].
  induction argv as [|[g s] argv IH]; simpl.
  - rewrite elem_of_nil, given_nil. split; [done|]. by intros [? ?].
  - rewrite elem_of_cons, IH, given_cons.
    destruct (given argv f) as [x|], (decide (g = f)) as [->|Hne];
      split; intros Hx; try by eauto.
    destruct Hx as [Hx|Hx]; [congruence|done].
Qed.

Lemma initial_namespace_flag defaults f :
  initial_namespace defaults !! dest f =
  Some (default VNone (defaults !! dest f)).
Proof.
  unfold initial_namespace. rewrite lookup_union.
  assert ((list_to_map ((fun f => (dest f, VNone)) <$> flags)
             : gmap string value) !! dest f = Some VNone) as ->.
  { by destruct f. }
  by destruct (defaults !! dest f).
Qed.

Lemma take_actions_flag argv : forall ns ns' f,
  take_actions argv ns = Ok ns' ->
  ns' !! dest f =
  match given argv f with
  | Some s => get_value f s
  | None => ns !! dest f
  end.
Proof.
  induction argv as [|[g s] argv IH]; intros ns ns' f Hok; simpl in Hok.
  - by injection Hok as <-.
  - destruct (get_value g s) as [v|] eqn:Hv; [|done].
    rewrite given_cons, (IH _ _ f Hok).
    destruct (given argv f); [done|].
    destruct (decide (g = f)) as [->|Hne].
    + by rewrite lookup_insert_eq.
    + rewrite lookup_insert_ne; [done|]. intros Heq. by apply dest_inj in Heq.
Qed.

Lemma take_actions_error argv : forall ns,
  (exists e, take_actions argv ns = Err e) <->
  exists f s, (f, s) ∈ argv /\ get_value f s = None.
Proof.
  induction argv as [|[g s] argv IH]; intros ns; simpl.
  - split; [intros [e ?]; done|]. intros (f & s & Hin & _).
    by apply elem_of_nil in Hin.
  - destruct (get_value g s) as [v|] eqn:Hv.
    + rewrite IH. split.
      * intros (f & s' & Hin & ?). exists f, s'. split; [by right|done].
      * intros (f & s' & Hin & Hnone). exists f, s'. split; [|done].
        apply elem_of_cons in Hin as [Heq|Hin]; [|done].
        injection Heq as -> ->. congruence.
    + split; [|intros _; by eexists]. intros _. exists g, s. split; [by left|done].
Qed.

Lemma take_actions_exit argv ns e :
  take_actions argv ns = Err e -> e = SystemExit 2.
Proof.
  revert ns. induction argv as [|[g s] argv IH]; intros ns; simpl; [done|].
  destruct (get_value g s); [apply IH|]. by intros [= <-].
Qed.

Lemma convert_defaults_flag argv defaults fs : forall ns ns' f,
  convert_defaults fs argv defaults ns = Ok ns' ->
  ns' !! dest f =
  match (if bool_decide (f ∈ fs) && negb (seen argv f)
         then string_default defaults f else None) with
  | Some s => get_value f s
  | None => ns !! dest f
  end.
Proof.
  induction fs as [|g fs IH]; intros ns ns' f Hok; simpl in Hok.
  - by injection Hok as <-.
  - destruct (decide (f = g)) as [->|Hne].
    + rewrite (bool_decide_eq_true_2 (g ∈ g :: fs)) by apply list_elem_of_here.
      simpl. unfold string_default in *.
      destruct (seen argv g) eqn:Hseen; simpl.
      { rewrite (IH _ _ g Hok), Hseen, andb_false_r. done. }
      destruct (defaults !! dest g) as [[|b|z|x|s]|] eqn:Hd;
        try (rewrite (IH _ _ g Hok), Hseen, Hd; by destruct (bool_decide _)).
      destruct (get_value g s) as [v|] eqn:Hv; [|done].
      rewrite (IH _ _ g Hok), Hseen, Hd, lookup_insert_eq.
      destruct (bool_decide _); simpl; by rewrite ?Hv.
    + assert (bool_decide (f ∈ g :: fs) = bool_decide (f ∈ fs)) as ->.
      { apply bool_decide_ext. rewrite elem_of_cons.
        split; [by intros [?|?]|by right]. }
      assert (forall v, <[dest g := v]> ns !! dest f = ns !! dest f) as Hins.
      { intros v. apply lookup_insert_ne. intros Heq.
        by apply dest_inj in Heq. }
      destruct (seen argv g); [by apply IH|].
      destruct (defaults !! dest g) as [[|b|z|x|s]|]; try by apply IH.
      destruct (get_value g s) as [v|]; [|done].
      by rewrite (IH _ _ f Hok), Hins.
Qed.

Lemma convert_defaults_error argv defaults fs : forall ns,
  (exists e, convert_defaults fs argv defaults ns = Err e) <->
  exists f s, f ∈ fs /\ seen argv f = false /\
    string_default defaults f = Some s /\ get_value f s = None.
Proof.
  induction fs as [|g fs IH]; intros ns; simpl.
  - split; [intros [e ?]; done|]. intros (f & s & Hin & _).
    by apply elem_of_nil in Hin.
  - assert ((exists f s, f ∈ fs /\ seen argv f = false /\
               string_default defaults f = Some s /\ get_value f s = None) ->
            exists f s, f ∈ g :: fs /\ seen argv f = false /\
               string_default defaults f = Some s /\ get_value f s = None)
      as Hweak.
    { intros (f & s & ? & ?). exists f, s. split; [by right|done]. }
    assert (forall P : Prop,
              (forall s, seen argv g = false ->
                 string_default defaults g = Some s ->
                 get_value g s = None -> P) ->
              (exists f s, f ∈ g :: fs /\ seen argv f = false /\
                 string_default defaults f = Some s /\ get_value f s = None) ->
              P \/ exists f s, f ∈ fs /\ seen argv f = false /\
                 string_default defaults f = Some s /\ get_value f s = None)
      as Hsplit.
    { intros P HP (f & s & Hin & Hs & Hd & Hv).
      apply elem_of_cons in Hin as [->|Hin]; [left; eauto|right; eauto 10]. }
    unfold string_default in *.
    destruct (seen argv g) eqn:Hseen;
      [|destruct (defaults !! dest g) as [[|b|z|x|s]|] eqn:Hd;
        [| | | |destruct (get_value g s) as [v|] eqn:Hv|]];
      try (rewrite IH; split; [exact Hweak|]; intros Hex;
           by destruct (Hsplit False
                  ltac:(intros s' Hs Heq Hv'; rewrite ?Hd in Heq; congruence)
                  Hex) as [[]|?]).
    split; [|intros _; by eexists]. intros _. exists g, s.
    split; [by left|]. by rewrite Hd.
Qed.

Lemma convert_defaults_exit argv defaults fs ns e :
  convert_defaults fs argv defaults ns = Err e -> e = SystemExit 2.
Proof.
  revert ns. induction fs as [|g fs IH]; intros ns; simpl; [done|].
  destruct (seen argv g); [apply IH|].
  destruct (defaults !! dest g) as [[|b|z|x|s]|]; try apply IH.
  destruct (get_value g s); [apply IH|]. by intros [= <-].
Qed.

End ParserFacts.

Section ResolveFacts.
Context `{Builtins}.

Lemma flags_all f : f ∈ flags.
Proof.
  unfold flags.
  destruct f;
    repeat first [apply list_elem_of_here | apply list_elem_of_further].
Qed.

Lemma int_round_trip n : py_int (int_str n) = Some n.
Proof.
  unfold py_int, int_str.
  rewrite NilZero.isi.
  - by rewrite DecimalZ.of_to.
  - destruct n as [|p|p]; simpl; [done| |done].
    intros [= Hp]. by apply DecimalPos.Unsigned.to_uint_nonnil in Hp.
  - destruct n as [|p|p]; simpl; [done|done|].
    intros [= Hp]. by apply DecimalPos.Unsigned.to_uint_nonnil in Hp.
Qed.

Lemma get_value_typed f s v : get_value f s = Some v -> has_type f v.
Proof.
  unfold get_value, has_type.
  destruct (flag_type f); simpl.
  - destruct (py_float s); by intros [= <-].
  - destruct (py_int s); by intros [= <-].
  - by intros [= <-].
Qed.

Lemma parse_known_args_flag defaults argv ns f :
  parse_known_args defaults argv = Ok ns ->
  ns !! dest f = flag_value defaults argv f.
Proof.
  unfold parse_known_args, res_bind, flag_value.
  destruct (take_actions argv (initial_namespace defaults)) as [ns1|e] eqn:H1;
    [|done].
  intros H2.
  rewrite (convert_defaults_flag _ _ _ _ _ f H2),
    (take_actions_flag _ _ _ f H1), initial_namespace_flag.
  rewrite (bool_decide_eq_true_2 _ (flags_all f)). simpl.
  unfold string_default.
  destruct (given argv f) as [s|] eqn:Hg.
  - assert (seen argv f = true) as ->.
    { destruct (seen argv f) eqn:Hs; [done|].
      apply seen_given in Hs. congruence. }
    done.
  - apply seen_given in Hg as ->. simpl.
    by destruct (defaults !! dest f) as [[|b|z|x|s]|].
Qed.

Lemma parse_known_args_error defaults argv :
  (exists e, parse_known_args defaults argv = Err e) <->
  rejected defaults argv.
Proof.
  unfold parse_known_args, res_bind, rejected.
  destruct (take_actions argv (initial_namespace defaults)) as [ns1|e] eqn:H1.
  - rewrite convert_defaults_error. split.
    + intros (f & s & _ & Hs & ? & ?). right. exists f, s.
      by apply seen_given in Hs.
    + intros [(f & s & Hin & Hv)|(f & s & Hg & ? & ?)].
      * assert (exists e, take_actions argv (initial_namespace defaults) = Err e)
          as [e He] by (apply take_actions_error; eauto).
        congruence.
      * exists f, s. split; [apply flags_all|]. by apply seen_given in Hg.
  - split; [|by eauto]. intros _. left.
    apply (take_actions_error argv (initial_namespace defaults)). eauto.
Qed.

Lemma parse_known_args_exit defaults argv e :
  parse_known_args defaults argv = Err e -> e = SystemExit 2.
Proof.
  unfold parse_known_args, res_bind.
  destruct (take_actions argv (initial_namespace defaults)) as [ns1|e0] eqn:H1.
  - apply convert_defaults_exit.
  - intros [= <-]. by apply take_actions_exit in H1.
Qed.

Lemma dest_lower f : lower (dest f) = dest f.
Proof. by destruct f. Qed.

Lemma py_str_none v : py_str v = None -> v = VNone.
Proof. by destruct v as [|[]| | |]. Qed.

Lemma dict_items_keys defaults :
  (dict_items defaults).*1 = dict_keys (dom defaults).
Proof.
  unfold dict_items.
  assert (Forall (fun k => is_Some (defaults !! k)) (dict_keys (dom defaults)))
    as Hall.
  { apply Forall_forall. intros k Hk. rewrite dict_keys_perm in Hk.
    by apply elem_of_elements, elem_of_dom in Hk. }
  revert Hall. generalize (dict_keys (dom defaults)). intros l Hall.
  induction Hall as [|k l [v Hv] _ IH]; [done|].
  rewrite omap_cons, Hv, fmap_app, IH. done.
Qed.

Lemma dict_items_NoDup defaults : NoDup (dict_items defaults).*1.
Proof.
  rewrite dict_items_keys, dict_keys_perm. apply NoDup_elements.
Qed.

Lemma dict_items_elem defaults k v :
  (k, v) ∈ dict_items defaults <-> defaults !! k = Some v.
Proof.
  unfold dict_items. rewrite list_elem_of_omap. split.
  - intros (k0 & _ & Hk0). destruct (defaults !! k0) as [v0|] eqn:Hv0; [|done].
    by injection Hk0 as -> ->.
  - intros Hv. exists k. split; [|by rewrite Hv].
    rewrite dict_keys_perm. apply elem_of_elements, elem_of_dom. by eexists.
Qed.

Lemma NoDup_fmap_elem {A B : Type} (f : A -> B) (l : list A) x y :
  NoDup (f <$> l) -> x ∈ l -> y ∈ l -> f x = f y -> x = y.
Proof.
  induction l as [|a l IH]; intros Hnd Hx Hy Hf; [by apply elem_of_nil in Hx|].
  rewrite fmap_cons in Hnd. apply NoDup_cons in Hnd as [Ha Hnd].
  apply elem_of_cons in Hx as [->|Hx], Hy as [->|Hy]; [done| | |by apply IH].
  - exfalso. apply Ha. rewrite Hf. by apply list_elem_of_fmap_2.
  - exfalso. apply Ha. rewrite <- Hf. by apply list_elem_of_fmap_2.
Qed.

(** What [read_dict] leaves when it accepts the items *)
Lemma read_defaults_ok items : forall added m,
  read_defaults items added = Ok m ->
  Forall (fun kv => is_Some (py_str kv.2) /\ added !! lower kv.1 = None) items /\
  NoDup (lower <$> items.*1) /\
  (forall k' s,
     m !! k' = Some s <->
     added !! k' = Some s \/
     exists k v, (k, v) ∈ items /\ lower k = k' /\ py_str v = Some s).
Proof.
  induction items as [|[k v] items IH]; intros added m Hm; simpl in Hm.
  - injection Hm as <-. split; [done|]. split; [apply NoDup_nil_2|].
    intros k' s. split; [by left|]. intros [?|(? & ? & Hin & _)]; [done|].
    by apply elem_of_nil in Hin.
  - destruct (added !! lower k) eqn:Hk; [done|].
    destruct (py_str v) as [s0|] eqn:Hv; [|done].
    apply IH in Hm as (Hall & Hnd & Hlook).
    split; [|split].
    + apply Forall_cons. split; [by simpl; rewrite Hv|].
      eapply Forall_impl; [exact Hall|]. intros [k2 v2] [? Hnone]. simpl in *.
      split; [done|]. by apply lookup_insert_None in Hnone as [? _].
    + simpl. apply NoDup_cons. split; [|done].
      intros Hin. apply list_elem_of_fmap in Hin as (k2 & Hk2 & Hin).
      apply list_elem_of_fmap in Hin as ([k3 v3] & -> & Hin).
      rewrite Forall_forall in Hall. destruct (Hall _ Hin) as [_ Hnone].
      simpl in *. rewrite <- Hk2 in Hnone.
      by rewrite lookup_insert_eq in Hnone.
    + intros k' s. rewrite Hlook. split.
      * intros [Hins|(k2 & v2 & Hin & ? & ?)].
        -- apply lookup_insert_Some in Hins as [[<- <-]|[_ ?]]; [|by left].
           right. exists k, v. split; [apply list_elem_of_here|done].
        -- right. exists k2, v2. split; [by apply list_elem_of_further|done].
      * intros [Hadd|(k2 & v2 & Hin & Hk2 & Hv2)].
        -- left. apply lookup_insert_Some. right. split; [|done].
           intros <-. congruence.
        -- apply elem_of_cons in Hin as [[= -> ->]|Hin].
           ++ left. apply lookup_insert_Some. left. split; [done|congruence].
           ++ right. by exists k2, v2.
Qed.

(** What [read_dict] raises, and on which item *)
Lemma read_defaults_err items : forall added e,
  NoDup items.*1 ->
  read_defaults items added = Err e ->
  (e = TypeError /\ exists k, (k, VNone) ∈ items) \/
  (exists k,
     k ∈ items.*1 /\ e = DuplicateOptionError "DEFAULT" (lower k) /\
     (is_Some (added !! lower k) \/
      exists k2, k2 ∈ items.*1 /\ k2 <> k /\ lower k2 = lower k)).
Proof.
  induction items as [|[k v] items IH]; intros added e Hnd He; simpl in He;
    [done|].
  simpl in Hnd. apply NoDup_cons in Hnd as [Hk Hnd].
  destruct (added !! lower k) as [s1|] eqn:Hadd.
  { injection He as <-. right. exists k. split; [apply list_elem_of_here|].
    split; [done|]. left. by eexists. }
  destruct (py_str v) as [s0|] eqn:Hv.
  - destruct (IH _ _ Hnd He) as [[-> [k2 Hin]]|(k2 & Hin & -> & Hdup)].
    + left. split; [done|]. exists k2. by apply list_elem_of_further.
    + right. exists k2. split; [by apply list_elem_of_further|].
      split; [done|].
      destruct Hdup as [Hsome|(k3 & Hin3 & Hne & Heq)].
      * destruct (decide (lower k = lower k2)) as [Heq|Hne].
        -- right. exists k. split; [apply list_elem_of_here|].
           split; [|done]. intros ->. by apply Hk.
        -- left. by rewrite lookup_insert_ne in Hsome.
      * right. exists k3. split; [by apply list_elem_of_further|done].
  - injection He as <-. left. split; [done|]. exists k.
    apply py_str_none in Hv as ->. apply list_elem_of_here.
Qed.

(** [ConfigParser(defaults)] accepts the defaults that hold no [None] and no
    two keys equal up to case, and gives each option in lower case. *)
Lemma stringify_ok mcts_defaults m :
  stringify mcts_defaults = Ok m ->
  accepted_defaults mcts_defaults /\
  forall k' s, m !! k' = Some s <-> default_option mcts_defaults k' s.
Proof.
  unfold stringify. intros Hm.
  apply read_defaults_ok in Hm as (Hall & Hnd & Hlook).
  rewrite Forall_forall in Hall. split; [split|].
  - intros k Hk. apply dict_items_elem, Hall in Hk as [[s Hs] _]. done.
  - intros k1 k2 (Hne & [v1 H1] & [v2 H2] & Heq). apply Hne.
    apply (NoDup_fmap_elem lower (dict_items mcts_defaults).*1); [done| | |done].
    + apply dict_items_elem in H1. by apply (list_elem_of_fmap_2 fst) in H1.
    + apply dict_items_elem in H2. by apply (list_elem_of_fmap_2 fst) in H2.
  - intros k' s. rewrite Hlook, lookup_empty. unfold default_option. split.
    + intros [?|(k & v & Hin & ? & ?)]; [done|].
      exists k, v. by apply dict_items_elem in Hin.
    + intros (k & v & Hin & ? & ?). right. exists k, v.
      by apply dict_items_elem in Hin.
Qed.

Lemma stringify_err mcts_defaults e :
  stringify mcts_defaults = Err e ->
  (e = TypeError /\ exists k, mcts_defaults !! k = Some VNone) \/
  (exists k1 k2,
     same_option mcts_defaults k1 k2 /\
     e = DuplicateOptionError "DEFAULT" (lower k1)).
Proof.
  unfold stringify. intros He.
  apply read_defaults_err in He as [[-> [k Hk]]|(k & Hin & -> & Hdup)];
    [..|apply dict_items_NoDup].
  - left. split; [done|]. exists k. by apply dict_items_elem.
  - right. destruct Hdup as [[? Hsome]|(k2 & Hin2 & Hne & Heq)];
      [by rewrite lookup_empty in Hsome|].
    exists k, k2. split; [|done].
    apply list_elem_of_fmap in Hin as ([k0 v] & -> & Hin).
    apply list_elem_of_fmap in Hin2 as ([k3 v2] & -> & Hin2).
    apply dict_items_elem in Hin, Hin2. simpl in *.
    split; [done|]. split; [by eexists|]. split; [by eexists|done].
Qed.

Lemma stringify_accepted mcts_defaults :
  accepted_defaults mcts_defaults -> exists m, stringify mcts_defaults = Ok m.
Proof.
  intros [Hnone Hcase].
  destruct (stringify mcts_defaults) as [m|e] eqn:Hs; [by eexists|].
  apply stringify_err in Hs as [[_ [k Hk]]|(k1 & k2 & Hsame & _)].
  - by destruct (Hnone k).
  - by destruct (Hcase k1 k2).
Qed.

(** The option that a default gives under a key in lower case *)
Lemma stringify_lookup mcts_defaults m k v :
  stringify mcts_defaults = Ok m ->
  mcts_defaults !! k = Some v -> lower k = k ->
  m !! k = py_str v.
Proof.
  intros Hs Hk Hlow. apply stringify_ok in Hs as [[Hnone Hcase] Hlook].
  destruct (py_str v) as [s|] eqn:Hv.
  - apply Hlook. by exists k, v.
  - apply py_str_none in Hv as ->. by destruct (Hnone k).
Qed.

(** No option where no key gives one *)
Lemma stringify_lookup_none mcts_defaults m k' :
  stringify mcts_defaults = Ok m ->
  (forall k, lower k = k' -> mcts_defaults !! k = None) ->
  m !! k' = None.
Proof.
  intros Hs Hno. apply stringify_ok in Hs as [_ Hlook].
  destruct (m !! k') as [s|] eqn:Hm; [|done].
  apply Hlook in Hm as (k & v & Hk & Hlow & _).
  rewrite (Hno _ Hlow) in Hk. done.
Qed.

(** What lines 111-115 give when they do not raise *)
Lemma file_layer_ok mcts_defaults a c d :
  file_layer mcts_defaults a = Ok (c, d) ->
  exists section m s b,
    stringify mcts_defaults = Ok m /\
    a !! "Defaults" = Some section /\
    c = {| cp_defaults := m; cp_sections := a |} /\
    (section ∪ m) !! "plotting" = Some s /\
    convert_to_boolean s = Some b /\
    d = <["plotting" := VBool b]> (VStr <$> section ∪ m).
Proof.
  unfold file_layer, res_bind, getboolean, items. simpl.
  destruct (stringify mcts_defaults) as [m|e] eqn:Hs; [|done].
  destruct (a !! "Defaults") as [section|]; [|done].
  destruct ((section ∪ m) !! "plotting") as [s|] eqn:Hp; [|done].
  destruct (convert_to_boolean s) as [b|] eqn:Hb; [|done].
  intros [= <- <-]. by exists section, m, s, b.
Qed.

(** What lines 113-115 raise when line 111 accepted the defaults *)
Lemma file_layer_steps mcts_defaults a m :
  stringify mcts_defaults = Ok m ->
  file_layer mcts_defaults a =
  match a !! "Defaults" with
  | None => Err (NoSectionError "Defaults")
  | Some section =>
      match (section ∪ m) !! "plotting" with
      | None => Err (NoOptionError "plotting" "Defaults")
      | Some s =>
          match convert_to_boolean s with
          | None => Err ValueError
          | Some b =>
              Ok ({| cp_defaults := m; cp_sections := a |},
                  <["plotting" := VBool b]> (VStr <$> section ∪ m))
          end
      end
  end.
Proof.
  intros Hs. unfold file_layer, res_bind, getboolean, items. rewrite Hs. simpl.
  destruct (a !! "Defaults") as [section|]; [|done].
  destruct ((section ∪ m) !! "plotting") as [s|]; [|done].
  by destruct (convert_to_boolean s).
Qed.

End ResolveFacts.

Section ResolveViews.
Context `{Builtins}.

Lemma take_actions_keeps argv : forall ns ns' k,
  take_actions argv ns = Ok ns' -> is_Some (ns !! k) -> is_Some (ns' !! k).
Proof.
  induction argv as [|[g s] argv IH]; intros ns ns' k Hok Hk; simpl in Hok.
  - by injection Hok as <-.
  - destruct (get_value g s) as [v|]; [|done].
    apply (IH _ _ k Hok). rewrite lookup_insert_is_Some.
    destruct (decide (dest g = k)); [by left|by right].
Qed.

Lemma convert_defaults_keeps argv defaults fs : forall ns ns' k,
  convert_defaults fs argv defaults ns = Ok ns' ->
  is_Some (ns !! k) -> is_Some (ns' !! k).
Proof.
  induction fs as [|g fs IH]; intros ns ns' k Hok Hk; simpl in Hok.
  - by injection Hok as <-.
  - destruct (seen argv g); [by apply (IH _ _ k Hok)|].
    destruct (defaults !! dest g) as [[|b|z|x|s]|];
      try by apply (IH _ _ k Hok).
    destruct (get_value g s) as [v|]; [|done].
    apply (IH _ _ k Hok). rewrite lookup_insert_is_Some.
    destruct (decide (dest g = k)); [by left|by right].
Qed.

(** After [parse_known_args] every flag is an attribute of the name
    space. *)
Lemma parse_known_args_value defaults argv ns f :
  parse_known_args defaults argv = Ok ns ->
  exists v, ns !! dest f = Some v /\ flag_value defaults argv f = Some v.
Proof.
  intros Hok. pose proof (parse_known_args_flag _ _ _ f Hok) as Hf.
  unfold parse_known_args, res_bind in Hok.
  destruct (take_actions argv (initial_namespace defaults)) as [ns1|e] eqn:H1;
    [|done].
  assert (is_Some (ns !! dest f)) as [v Hv].
  { apply (convert_defaults_keeps _ _ _ _ _ _ Hok).
    apply (take_actions_keeps _ _ _ _ H1).
    rewrite initial_namespace_flag. by eexists. }
  exists v. split; [done|]. by rewrite <- Hf.
Qed.

Lemma resolve_ok args mcts_defaults argv config ns :
  resolve args mcts_defaults argv = Ok (config, ns) ->
  match args with
  | None => config = None /\ parse_known_args mcts_defaults argv = Ok ns
  | Some a =>
      exists c d,
        file_layer mcts_defaults a = Ok (c, d) /\ config = Some c /\
        parse_known_args d argv = Ok ns
  end.
Proof.
  unfold resolve, res_bind. destruct args as [a|]; simpl.
  - destruct (file_layer mcts_defaults a) as [[c d]|e]; [|done]. simpl.
    destruct (parse_known_args d argv) as [ns'|e] eqn:Hp; [|done].
    intros [= <- <-]. by exists c, d.
  - destruct (parse_known_args mcts_defaults argv) as [ns'|e] eqn:Hp; [|done].
    simpl. by intros [= <- <-].
Qed.

(** The defaults that the parser receives when a file is given *)
Lemma file_defaults_flag (options : gmap string string) b f :
  (<["plotting" := VBool b]> (VStr <$> options)) !! dest f =
  match f with
  | plotting => Some (VBool b)
  | _ => VStr <$> options !! dest f
  end.
Proof.
  destruct f; simpl;
    first [ by rewrite lookup_insert_eq
          | by rewrite lookup_insert_ne, lookup_fmap ].
Qed.

Lemma file_defaults_other (options : gmap string string) b f :
  f <> plotting ->
  (<["plotting" := VBool b]> (VStr <$> options)) !! dest f
  = VStr <$> options !! dest f.
Proof. intros Hne. rewrite file_defaults_flag. by destruct f. Qed.

Lemma read_file_other f s : f <> plotting -> read_file f s = get_value f s.
Proof. by destruct f. Qed.

(** The options of section ["Defaults"] as [config.items] lists them: the
    options of the file over those of the built-in defaults *)
Lemma merged_section (section m : gmap string string) k s :
  section !! k = Some s -> (section ∪ m) !! k = Some s.
Proof. intros Hs. by apply lookup_union_Some_l. Qed.

Lemma merged_default (section m : gmap string string) k :
  section !! k = None -> (section ∪ m) !! k = m !! k.
Proof. intros Hs. by apply lookup_union_r. Qed.

Lemma convert_to_boolean_str b :
  forall s, py_str (VBool b) = Some s -> convert_to_boolean s = Some b.
Proof. destruct b; by intros s [= <-]. Qed.

End ResolveViews.

Section Precedence.
Context `{Builtins}.

Lemma convert_to_boolean_word s b :
  convert_to_boolean s = Some b -> boolean_word s b.
Proof.
  unfold convert_to_boolean, boolean_word.
  case_bool_decide as Ht; [by intros [= <-]|].
  case_bool_decide as Hf; [by intros [= <-]|done].
Qed.

Lemma boolean_word_convert s b :
  boolean_word s b -> convert_to_boolean s = Some b.
Proof.
  unfold convert_to_boolean, boolean_word. intros Hw.
  destruct b.
  - by rewrite bool_decide_eq_true_2.
  - case_bool_decide as Ht; [|by rewrite bool_decide_eq_true_2].
    exfalso. revert Hw Ht. generalize (lower s). intros w Hw Ht.
    repeat (apply elem_of_cons in Hw as [->|Hw];
            [by repeat (apply elem_of_cons in Ht as [Ht|Ht]; [done|]);
                apply elem_of_nil in Ht|]).
    by apply elem_of_nil in Hw.
Qed.

Lemma py_int_numeral s n m : py_int s = Some n -> numeral s = Some m -> n = m.
Proof.
  unfold py_int, numeral.
  destruct (NilZero.int_of_string s) as [d|]; [|done].
  simpl. congruence.
Qed.

(** The entry of the file for a flag is the option that [config.items]
    lists for it. *)
Lemma in_file_section a f s :
  in_file (Some a) f = Some s ->
  exists section, a !! "Defaults" = Some section /\ section !! dest f = Some s.
Proof.
  unfold in_file. simpl. destruct (a !! "Defaults") as [section|]; [|done].
  simpl. eauto.
Qed.

(** The layers by precedence. When lines 105-130 of [mcts] resolve the
    configuration, the value of every flag comes from the highest layer
    that specifies it, command line over file over built-in defaults, read
    by the flag's [type] (by [getboolean] for the [plotting] entry of the
    file):
    - a flag given on the command line holds the conversion of its (last)
      argument by the [type] of the flag, for [plotting] the truth value of
      the word as a string;
    - a flag not given, with an entry in section ["Defaults"] of the file,
      holds that entry as read;
    - a flag not given and without entry in the file holds the built-in
      default: as it is when no file is supplied (a string apart), and,
      when a file is supplied, for a default of the flag's declared type
      (whose [str] reads back as itself).
    A flag that was not given never overwrites the layer below. *)
Lemma layers_by_precedence args mcts_defaults argv config ns f :
  resolve args mcts_defaults argv = Ok (config, ns) ->
  (forall s, given argv f = Some s ->
     exists v, get_value f s = Some v /\ ns !! dest f = Some v) /\
  (given argv f = None ->
   forall s, in_file args f = Some s ->
     exists v, read_file f s = Some v /\ ns !! dest f = Some v) /\
  (given argv f = None -> in_file args f = None ->
   forall v, mcts_defaults !! dest f = Some v ->
     (args = None -> ~ is_string v -> ns !! dest f = Some v) /\
     (has_type f v ->
      (forall x, v = VFloat x -> py_float (float_str x) = Some x) ->
      ns !! dest f = Some v)).
Proof.
  intros Hres. apply resolve_ok in Hres. destruct args as [a|].
  - destruct Hres as (c & d & Hfile & -> & Hparse).
    apply file_layer_ok in Hfile
      as (section & m & sp & b & Hm & Ha & -> & Hp & Hb & ->).
    destruct (parse_known_args_value _ _ _ f Hparse) as (v & Hv & Hfv).
    unfold flag_value in Hfv.
    unfold in_file. simpl. rewrite Ha. simpl.
    split; [|split].
    + intros s Hs. rewrite Hs in Hfv. eauto.
    + intros Hg s Hs. rewrite Hg in Hfv.
      pose proof (merged_section section m _ _ Hs) as Hl.
      exists v. split; [|done].
      destruct (decide (f = plotting)) as [->|Hne].
      * rewrite file_defaults_flag in Hfv. simpl in *.
        rewrite Hl in Hp. injection Hp as <-. rewrite Hb. simpl. congruence.
      * rewrite file_defaults_other, Hl in Hfv by done.
        by rewrite read_file_other.
    + intros Hg Hs v0 Hv0. split; [done|]. intros Hty Hfloat.
      rewrite Hg in Hfv.
      pose proof (merged_default section m _ Hs) as Hl.
      rewrite (stringify_lookup _ _ _ _ Hm Hv0 (dest_lower f)) in Hl.
      destruct (decide (f = plotting)) as [->|Hne].
      * rewrite file_defaults_flag in Hfv. simpl in *.
        destruct v0 as [|b0|n|x|s0]; try done.
        rewrite Hl in Hp.
        rewrite (convert_to_boolean_str b0 _ Hp) in Hb. congruence.
      * rewrite file_defaults_other, Hl in Hfv by done.
        rewrite Hv. unfold get_value, has_type in *.
        destruct (flag_type f) eqn:Hft, v0 as [|b0|n|x|s0]; try done;
          simpl in Hfv.
        -- rewrite (Hfloat _ eq_refl) in Hfv. by injection Hfv as <-.
        -- rewrite int_round_trip in Hfv. by injection Hfv as <-.
        -- by destruct f.
  - destruct Hres as (-> & Hparse).
    destruct (parse_known_args_value _ _ _ f Hparse) as (v & Hv & Hfv).
    unfold flag_value in Hfv. unfold in_file. simpl.
    split; [|split].
    + intros s Hs. rewrite Hs in Hfv. eauto.
    + done.
    + intros Hg _ v0 Hv0. rewrite Hg, Hv0 in Hfv.
      split.
      * intros _ Hstr. destruct v0; simpl in Hstr; try congruence. done.
      * intros Hty _. unfold has_type in Hty.
        destruct v0; try congruence. by destruct (flag_type f).
Qed.


End Precedence.

(** * The entry point *)

Section EntryFacts.
Context `{Builtins} `{!Externals}.

(** [mcts] stops at the resolution, at the construction of the default
    environment or at the header, or it calls [run_mcts] with the resolved
    name space. *)
Lemma mcts_inv args env mcts_defaults argv s r s' :
  mcts args env mcts_defaults argv s = (r, s') ->
  match resolve args mcts_defaults argv with
  | Err e => r = Err e /\ s' = s
  | Ok (config, ns) =>
      (exists e, r = Err e /\ s'.2 = s.2) \/
      exists e0 t s1,
        (exists e, r = Err e /\ is_Some config /\
           s'.2 = s.2 ++ header_of config (strftime t)) \/
        (s1.2 = s.2 ++ header_of config (strftime t) /\
         run_mcts e0 (Some ns) None None (Some (strftime t)) mcts_defaults s1
           = (r, s'))
  end.
Proof.
  unfold mcts. intros Hrun.
  run_bind Hrun; apply lift_inv in Hstep as [Hres ->]; rewrite Hres;
    [|done].
  destruct a as [config ns]. simpl in Hrun.
  run_bind Hrun.
  2:{ left. exists e. split; [done|].
      destruct env as [e1|]; [by apply ret_inv in Hstep as [? _]|].
      apply call_inv in Hstep. by rewrite Hstep, app_nil_r. }
  assert (s0.2 = s.2) as Henv.
  { destruct env as [e1|]; [by apply ret_inv in Hstep as [_ ->]|].
    apply call_inv in Hstep. by rewrite Hstep, app_nil_r. }
  rename a into e0.
  run_bind Hrun; [|by apply clock_inv in Hstep0 as [[? ?] _]].
  apply clock_inv in Hstep0 as [_ Hclock]. rename a into t.
  right. exists e0, t.
  run_bind Hrun.
  - exists s2. right. split; [|done].
    destruct config as [c|]; simpl.
    + apply call_inv in Hstep0. by rewrite Hstep0, Hclock, Henv.
    + apply ret_inv in Hstep0 as [_ ->]. by rewrite app_nil_r, Hclock, Henv.
  - exists s. left. exists e. split; [done|].
    destruct config as [c|]; simpl.
    + split; [by eexists|].
      apply call_inv in Hstep0. by rewrite Hstep0, Hclock, Henv.
    + by apply ret_inv in Hstep0 as [? _].
Qed.

(** The arguments of the calls of [mcts_trial] in a run of [run_mcts] *)
Lemma run_trial_arguments env config fig ax gst mcts_defaults s r s' new :
  run_mcts env config fig ax gst mcts_defaults s = (r, s') ->
  s'.2 = s.2 ++ new ->
  forall a, a ∈ trial_arguments new ->
    exists sims d nr it pl,
      getattr (default mcts_defaults config) "simulations" = Ok sims /\
      getattr (default mcts_defaults config) "depth" = Ok d /\
      getattr (default mcts_defaults config) "trials" = Ok nr /\
      getattr (default mcts_defaults config) "iterations" = Ok it /\
      getattr (default mcts_defaults config) "plotting" = Ok pl /\
      a = {| ta_env := env; ta_iterations := it; ta_depth := d;
             ta_horizon := 20; ta_plotting := pl; ta_simulations := sims;
             ta_fig := fig; ta_ax := ax;
             ta_results :=
               {| results_method_name := "mcts";
                  results_global_start_time := gst;
                  results_num_iters := nr; results_plotting := pl |} |}.
Proof.
  intros Hrun Hnew a Ha.
  apply run_mcts_inv in Hrun as (r0 & Hrun & _).
  apply run_mcts_loop_inv in Hrun
    as [(e & _ & ->)|(sims & d & nr & it & pl & idx & ? & ? & ? & ? & ? & _
                      & Hrun)].
  { assert (new = []) as ->.
    { apply (app_inv_head s.2). by rewrite app_nil_r. }
    by apply elem_of_nil in Ha. }
  exists sims, d, nr, it, pl. do 5 (split; [done|]).
  apply trials_loop_spec in Hrun as (ts & tail & Htr & _ & _ & Hr).
  rewrite Hnew in Htr. apply app_inv_head in Htr as ->.
  unfold trial_arguments in Ha. rewrite omap_app in Ha.
  fold (trial_arguments tail) in Ha.
  apply elem_of_app in Ha as [Ha|Ha].
  - pose proof (trial_arguments_turns env it d pl sims fig ax
      {| results_method_name := "mcts"; results_global_start_time := gst;
         results_num_iters := nr; results_plotting := pl |}
      (run_data initial_state) ts) as Hargs.
    unfold trial_arguments in Hargs. rewrite Hargs in Ha.
    by apply list_elem_of_fmap in Ha as (t & -> & _).
  - destruct r0 as [st'|e].
    + destruct Hr as (_ & -> & _). by apply elem_of_nil in Ha.
    + destruct Hr as (k & _ & Hbr).
      apply broken_turn_inv in Hbr as (out & _ & Hargs & _).
      rewrite Hargs in Ha. by apply list_elem_of_singleton in Ha as ->.
Qed.

(** A run of [run_mcts] writes no header. *)
Lemma run_no_header env config fig ax gst mcts_defaults s r s' new :
  run_mcts env config fig ax gst mcts_defaults s = (r, s') ->
  s'.2 = s.2 ++ new ->
  headers new = [].
Proof.
  intros Hrun Hnew.
  apply run_mcts_inv in Hrun as (r0 & Hrun & _).
  apply run_mcts_loop_inv in Hrun
    as [(e & _ & ->)|(sims & d & nr & it & pl & idx & _ & _ & _ & _ & _ & _
                      & Hrun)].
  { assert (new = []) as ->; [|done].
    apply (app_inv_head s.2). by rewrite app_nil_r. }
  apply trials_loop_spec in Hrun as (ts & tail & Htr & _ & _ & Hr).
  rewrite Hnew in Htr. apply app_inv_head in Htr as ->.
  unfold headers. rewrite omap_app.
  pose proof (headers_turns env it d pl sims fig ax
      {| results_method_name := "mcts"; results_global_start_time := gst;
         results_num_iters := nr; results_plotting := pl |}
      (run_data initial_state) ts) as Hh.
  unfold headers in Hh. rewrite Hh. simpl.
  destruct r0 as [st'|e].
  - by destruct Hr as (_ & -> & _).
  - destruct Hr as (k & _ & Hbr).
    by apply broken_turn_inv in Hbr as (out & _ & _ & Hh' & _).
Qed.

(** A run of [run_mcts] only adds to the trace. *)
Lemma run_mcts_extends env config fig ax gst mcts_defaults s r s' :
  run_mcts env config fig ax gst mcts_defaults s = (r, s') ->
  exists new, s'.2 = s.2 ++ new.
Proof.
  intros Hrun. apply run_mcts_inv in Hrun as (r0 & Hrun & _).
  apply run_mcts_loop_inv in Hrun
    as [(e & _ & ->)|(sims & d & nr & it & pl & idx & _ & _ & _ & _ & _ & _
                      & Hrun)].
  - exists []. by rewrite app_nil_r.
  - apply trials_loop_spec in Hrun as (ts & tail & Htr & _). eauto.
Qed.

(** What a completed run of [run_mcts] over N trials leaves in the trace *)
Lemma completed_run_views env cfg fig ax gst mcts_defaults N pl s s' new :
  run_mcts env (Some cfg) fig ax gst mcts_defaults s = (Ok tt, s') ->
  cfg !! "trials" = Some (VInt N) ->
  cfg !! "plotting" = Some pl ->
  s'.2 = s.2 ++ new ->
  (trial_calls new).*1 = seqZ 1 N /\
  length <$> writes new = seq 1 (Z.to_nat N) /\
  gifs new = (if truthy pl then seqZ 1 N else []).
Proof.
  intros Hrun HN Hpl Hnew.
  apply run_mcts_inv in Hrun as ([st'|e] & Hrun & Hr0); [|done].
  destruct (run_mcts_loop_trace _ _ _ _ _ _ _ _ _ _ Hrun HN)
    as [(e & ? & _)|(sims & d & it & pl' & _ & _ & _ & Hpl' & ts & tail & Htr
                     & Hidx & _ & _ & Hlen & -> & Hrd)]; [done|].
  simpl in Hpl'. unfold getattr in Hpl'. rewrite Hpl in Hpl'.
  injection Hpl' as <-.
  rewrite Hnew, app_nil_r in Htr. apply app_inv_head in Htr as ->.
  rewrite trial_calls_turns, writes_turns, gifs_turns. simpl.
  rewrite <- (seqZ_1_max _ N Hlen), <- Hidx.
  split; [by rewrite <- list_fmap_compose|].
  split; [|done].
  rewrite <- list_fmap_compose.
  replace (Z.to_nat N) with (length ts) by lia.
  rewrite <- (list_fmap_id (seq 1 (length ts))) at 2.
  apply list_fmap_ext. intros ? n Hn. apply lookup_seq in Hn as [-> ?].
  simpl. rewrite length_take, length_fmap. lia.
Qed.

(** The trace of a run of [mcts] *)
Lemma mcts_trace args env mcts_defaults argv s r s' new :
  mcts args env mcts_defaults argv s = (r, s') ->
  s'.2 = s.2 ++ new ->
  (new = [] /\ exists e, r = Err e) \/
  exists config ns e0 t,
    resolve args mcts_defaults argv = Ok (config, ns) /\
    ((exists e, r = Err e /\ is_Some config /\
        new = header_of config (strftime t)) \/
     exists s1 rest,
       new = header_of config (strftime t) ++ rest /\
       s'.2 = s1.2 ++ rest /\
       run_mcts e0 (Some ns) None None (Some (strftime t)) mcts_defaults s1
         = (r, s')).
Proof.
  intros Hrun Hnew. apply mcts_inv in Hrun.
  destruct (resolve args mcts_defaults argv) as [[config ns]|e].
  - destruct Hrun as [(e & -> & Htr)|(e0 & t & s1 & [(e & -> & ? & Htr)|[Htr Hrun]])].
    + left. split; [|by eexists].
      apply (app_inv_head s.2). by rewrite app_nil_r, <- Hnew.
    + right. exists config, ns, e0, t. split; [done|]. left.
      exists e. split; [done|]. split; [done|].
      apply (app_inv_head s.2). by rewrite <- Hnew.
    + right. exists config, ns, e0, t. split; [done|]. right.
      destruct (run_mcts_extends _ _ _ _ _ _ _ _ _ Hrun) as [rest Hrest].
      exists s1, rest. split; [|done].
      apply (app_inv_head s.2). by rewrite <- Hnew, Hrest, Htr, app_assoc.
  - destruct Hrun as [-> ->]. left. split; [|by eexists].
    apply (app_inv_head s.2). by rewrite app_nil_r, <- Hnew.
Qed.


End EntryFacts.

Section Entry.
Context `{Builtins} `{!Externals}.



End Entry.

Section Scenarios.
Context `{Builtins} `{!Externals}.


End Scenarios.

(** * Edge cases and what the two functions never do *)

Section AttributeFacts.
Context `{Builtins} `{!Externals}.

Lemma attributes_present (cfg : gmap string value) :
  Forall (fun n => is_Some (cfg !! n)) attributes ->
  exists sims d nr it pl,
    getattr cfg "simulations" = Ok sims /\ getattr cfg "depth" = Ok d /\
    getattr cfg "trials" = Ok nr /\ getattr cfg "iterations" = Ok it /\
    getattr cfg "plotting" = Ok pl.
Proof.
  unfold attributes, getattr. intros Hall.
  repeat (apply Forall_cons in Hall as [[? ->] Hall]). eauto 10.
Qed.

(** X1. [run_mcts] reads the attributes [simulations], [depth], [trials],
    [iterations] and [plotting] of the configuration, in this order
    (lines 51-55), and reads them from [mcts_defaults] when no configuration
    is given (lines 49-50). When one of them is missing and those before it
    are there, [run_mcts] raises [AttributeError] for that one, and neither
    the clock, nor the trial engine, nor [print], nor the sink was called. *)
Theorem missing_attribute_raises
    env config fig ax gst mcts_defaults s before name after :
  attributes = before ++ name :: after ->
  Forall (fun n => is_Some (default mcts_defaults config !! n)) before ->
  default mcts_defaults config !! name = None ->
  run_mcts env config fig ax gst mcts_defaults s
    = (Err (AttributeError name), s).
Proof.
  unfold attributes. intros Hsplit Hbefore Hname.
  unfold run_mcts, run_mcts_loop, bind, lift, getattr.
  do 5 (destruct before as [|? before];
        [injection Hsplit as <- <-; by rewrite Hname
        |injection Hsplit as <- Hsplit;
         apply Forall_cons in Hbefore as [[? ->] Hbefore]]).
  by destruct before.
Qed.

(** X2. When [trials] is an integer that is zero or negative,
    [range(1, num_runs + 1)] (line 70) is empty: [run_mcts] returns at once,
    without a trial, a line of the report, a write or a reading of the
    clock. *)
Theorem no_trial_without_positive_count
    env config fig ax gst mcts_defaults N s :
  Forall (fun n => is_Some (default mcts_defaults config !! n)) attributes ->
  default mcts_defaults config !! "trials" = Some (VInt N) ->
  N <= 0 ->
  run_mcts env config fig ax gst mcts_defaults s = (Ok tt, s).
Proof.
  intros Hall HN Hle.
  destruct (attributes_present _ Hall)
    as (sims & d & nr & it & pl & Hs & Hd & Hnr & Hi & Hp).
  unfold run_mcts, run_mcts_loop, bind, lift.
  rewrite Hs, Hd, Hnr, Hi, Hp.
  unfold getattr in Hnr. rewrite HN in Hnr. injection Hnr as <-.
  simpl. by rewrite seqZ_nil by lia.
Qed.

(** [run_mcts] stops at line 70 when [range] refuses [trials]. *)
Lemma run_mcts_range_error env config fig ax gst mcts_defaults v e s :
  Forall (fun n => is_Some (default mcts_defaults config !! n)) attributes ->
  default mcts_defaults config !! "trials" = Some v ->
  range_from_1 v = Err e ->
  run_mcts env config fig ax gst mcts_defaults s = (Err e, s).
Proof.
  intros Hall Hv He.
  destruct (attributes_present _ Hall)
    as (sims & d & nr & it & pl & Hs & Hd & Hnr & Hi & Hp).
  unfold run_mcts, run_mcts_loop, bind, lift.
  rewrite Hs, Hd, Hnr, Hi, Hp.
  unfold getattr in Hnr. rewrite Hv in Hnr. injection Hnr as <-.
  by rewrite He.
Qed.

(** X3. When the five attributes are there and [trials] is neither an
    [int] nor a [bool] (it is [None], a float or a string), line 70 raises
    [TypeError], and nothing was called before. *)
Theorem trials_not_int_raises
    env config fig ax gst mcts_defaults v s :
  Forall (fun n => is_Some (default mcts_defaults config !! n)) attributes ->
  default mcts_defaults config !! "trials" = Some v ->
  (forall n, v <> VInt n) -> (forall b, v <> VBool b) ->
  run_mcts env config fig ax gst mcts_defaults s = (Err TypeError, s).
Proof.
  intros Hall Hv Hint Hbool.
  apply run_mcts_range_error with v; [done|done|].
  destruct v as [|b|n|x|w]; simpl; try done.
  - by destruct (Hbool b).
  - by destruct (Hint n).
Qed.

(** X5. [run_mcts] reads nothing of the configuration but the five
    attributes: two configurations that agree on them give the same run
    (result, world and trace), whatever [lambda_arg], [collision], [loss] or
    any other attribute hold, and whatever [mcts_defaults] is when a
    configuration is given. *)
Theorem run_reads_five_attributes env c1 c2 fig ax gst d1 d2 s :
  Forall (fun n => c1 !! n = c2 !! n) attributes ->
  run_mcts env (Some c1) fig ax gst d1 s
    = run_mcts env (Some c2) fig ax gst d2 s.
Proof.
  unfold attributes. intros Hall.
  repeat (apply Forall_cons in Hall as [? Hall]).
  unfold run_mcts, run_mcts_loop, getattr. simpl.
  repeat match goal with
         | Heq : c1 !! _ = c2 !! _ |- _ => rewrite Heq; clear Heq
         end.
  reflexivity.
Qed.

End AttributeFacts.

Section CallFacts.
Context `{Builtins} `{!Externals}.

Lemma call_inv_world {A : Type} (f : World -> res A * World) ev s r s' :
  call f ev s = (r, s') -> exists w, f s.1 = (r, w) /\ s' = (w, s.2 ++ ev r).
Proof.
  unfold call. destruct (f s.1) as [r0 w]. intros Hrun.
  injection Hrun as <- <-. by exists w.
Qed.

End CallFacts.

Section RateFacts.
Context `{Builtins} `{!Externals}.
Variables (env : handle) (iterations DEPTH plotting_flag simulations : value)
  (fig ax : option handle) (results : Results).

Local Abbreviation trial' := (trial env iterations DEPTH plotting_flag simulations fig ax results).
Local Abbreviation loop' := (trials_loop env iterations DEPTH plotting_flag simulations fig ax results).
Local Abbreviation turns_events' := (turns_events env iterations DEPTH plotting_flag simulations fig ax results).
Local Abbreviation turn_events' := (turn_events env iterations DEPTH plotting_flag simulations fig ax results).
Local Abbreviation broken_turn' := (broken_turn env iterations DEPTH plotting_flag simulations fig ax results).
Local Abbreviation args' := (call_args env iterations DEPTH plotting_flag simulations fig ax results).
Local Abbreviation trial_event' := (trial_event env iterations DEPTH plotting_flag simulations fig ax results).

Lemma last_of_error result n e :
  last_of result n = Err e -> e = IndexError \/ e = TypeError.
Proof.
  unfold last_of, res_bind, getitem, last_item.
  destruct (result !! n) as [[[| | | |w]|l| |]|]; try (intros [= <-]; by eauto).
  - destruct (string_last w); intros [= <-]. by left.
  - destruct (last l); intros [= <-]. by left.
Qed.

(** A turn whose payload lacks one of the two rates stops at the call of
    [mcts_trial]. *)
Lemma trial_without_rates i st s r s' result rest :
  trial' i st s = (r, s') ->
  s'.2 = s.2 ++ trial_event' i (Ok result) :: rest ->
  (forall c l, ~ (last_of result 6 = Ok c /\ last_of result 7 = Ok l)) ->
  rest = [] /\
  exists e, r = Err e /\
    (last_of result 6 = Err e \/
     exists c, last_of result 6 = Ok c /\ last_of result 7 = Err e).
Proof.
  intros Hrun Hnew Hno.
  assert (forall st', r <> Ok st') as Hnok.
  { intros st' ->.
    apply trial_spec in Hrun as (t & _ & (c & l & Hc & Hl & _) & _ & Htr).
    rewrite Hnew in Htr. apply app_inv_head in Htr.
    unfold turn_events, trial_event in Htr. injection Htr as _ Hres _.
    rewrite <- Hres in Hc, Hl. by destruct (Hno c l). }
  unfold trial in Hrun. unfold trial_event in Hnew.
  run_bind Hrun; [|by apply clock_inv in Hstep as [[? ?] _]].
  apply clock_inv in Hstep as [_ Htr].
  run_bind Hrun.
  2:{ apply call_inv in Hstep. rewrite Htr, Hnew in Hstep.
      apply app_inv_head in Hstep. discriminate Hstep. }
  apply call_inv in Hstep. rewrite Htr in Hstep. clear Htr. rename Hstep into Htr.
  rename a0 into result0.
  run_bind Hrun; [|by apply clock_inv in Hstep as [[? ?] _]].
  apply clock_inv in Hstep as [_ Hstep]; trace_same Htr Hstep.
  run_bind Hrun; [|by apply clock_inv in Hstep as [[? ?] _]].
  apply clock_inv in Hstep as [_ Hstep]; trace_same Htr Hstep.
  run_bind Hrun; apply lift_inv in Hstep as [Hc ->].
  2:{ rewrite Hnew in Htr. apply app_inv_head in Htr.
      injection Htr as -> ->. split; [done|]. exists e. eauto. }
  run_bind Hrun; apply lift_inv in Hstep as [Hl ->].
  2:{ rewrite Hnew in Htr. apply app_inv_head in Htr.
      injection Htr as -> ->. split; [done|]. exists e. eauto. }
  exfalso.
  assert (result0 = result) as Heq;
    [|subst result0; exact (Hno _ _ (conj Hc Hl))].
  assert (forall tr, s'.2 = s.2 ++ EvTrial i args' (Ok result0) :: tr ->
            result0 = result) as Hsame.
  { intros tr Htr'. rewrite Hnew in Htr'. apply app_inv_head in Htr'.
    by injection Htr' as ->. }
  clear Hnew Hno Hc Hl.
  do 5 (run_bind Hrun; apply print_inv in Hstep as [? Hstep]; [|done];
        trace_more Htr Hstep).
  run_bind Hrun; apply lift_inv in Hstep as [Hrc ->]; [|by eapply Hsame].
  run_bind Hrun; apply print_inv in Hstep as [? Hstep]; [|done];
    trace_more Htr Hstep.
  run_bind Hrun; apply lift_inv in Hstep as [Hrl ->]; [|by eapply Hsame].
  do 2 (run_bind Hrun; apply print_inv in Hstep as [? Hstep]; [|done];
        trace_more Htr Hstep).
  run_bind Hrun; apply call_inv in Hstep; trace_more Htr Hstep;
    [|by eapply Hsame].
  run_bind Hrun.
  - apply ret_inv in Hrun as [-> _]. by destruct (Hnok _ eq_refl).
  - destruct (truthy (results_plotting results)).
    + apply call_inv in Hstep. trace_more Htr Hstep. by eapply Hsame.
    + by apply ret_inv in Hstep as [? _].
Qed.

Lemma trial_calls_turn rd t :
  trial_calls (turn_events' rd t) = [(turn_index t, Ok (turn_result t))].
Proof.
  unfold trial_calls, turn_events, sink_events. simpl.
  by destruct (truthy (results_plotting results)).
Qed.

(** In a run of the loop, a call of [mcts_trial] whose payload lacks one of
    the two rates is the last event, and its error ends the loop. *)
Lemma trials_loop_without_rates indices : forall st s r s' new k result,
  loop' indices st s = (r, s') ->
  s'.2 = s.2 ++ new ->
  (k, Ok result) ∈ trial_calls new ->
  (forall c l, ~ (last_of result 6 = Ok c /\ last_of result 7 = Ok l)) ->
  (exists e, r = Err e /\
     (last_of result 6 = Err e \/
      exists c, last_of result 6 = Ok c /\ last_of result 7 = Err e)) /\
  last new = Some (trial_event' k (Ok result)).
Proof.
  induction indices as [|i rest IH]; intros st s r s' new k result Hrun Hnew
    Hk Hno; simpl in Hrun.
  - apply ret_inv in Hrun as [_ ->].
    assert (new = []) as ->.
    { apply (app_inv_head s.2). by rewrite app_nil_r. }
    by apply elem_of_nil in Hk.
  - run_bind Hrun.
    + apply trial_spec in Hstep as (t & Hi & (c & l & Hc & Hl & _) & _ & Htr).
      destruct (trials_loop_spec _ _ _ _ _ _ _ _ _ _ _ _ _ Hrun)
        as (ts & tail & Htr' & _).
      remember (turns_events' (run_data a) ts ++ tail) as new' eqn:Hnew'.
      clear Hnew'. pose proof Htr' as Hrest.
      rewrite Htr, <- app_assoc in Htr'. rewrite Hnew in Htr'.
      apply app_inv_head in Htr'. subst new.
      unfold trial_calls in Hk. rewrite omap_app in Hk.
      fold (trial_calls (turn_events' (run_data st) t)) in Hk.
      fold (trial_calls new') in Hk.
      rewrite trial_calls_turn in Hk.
      apply elem_of_app in Hk as [Hk|Hk].
      { apply list_elem_of_singleton in Hk. injection Hk as _ ->.
        by destruct (Hno c l). }
      destruct (IH _ _ _ _ _ _ _ Hrun Hrest Hk Hno) as [He Hlast].
      split; [done|]. by rewrite last_app, Hlast.
    + pose proof Hstep as Htrial.
      apply trial_spec in Hstep as (evs & Htr & Hbr).
      rewrite Hnew in Htr. apply app_inv_head in Htr. subst evs.
      pose proof Hbr as (out & rest0 & -> & _).
      apply broken_turn_inv in Hbr as (out' & Hcalls & _).
      rewrite Hcalls in Hk. apply list_elem_of_singleton in Hk.
      injection Hk as -> <-.
      unfold trial_calls in Hcalls. rewrite omap_cons in Hcalls.
      simpl in Hcalls. injection Hcalls as -> _.
      destruct (trial_without_rates _ _ _ _ _ _ _ Htrial Hnew Hno) as [-> He].
      done.
Qed.

Lemma broken_turn_gifs rd k e tail :
  broken_turn' rd k e tail ->
  gifs tail = [] \/
  (truthy (results_plotting results) = true /\ gifs tail = [k]).
Proof.
  intros (out & rest0 & -> & Hout). destruct out as [result|e0].
  - destruct Hout as (stamp & rt & rc & rl & [more Hmore] & _).
    pose proof (f_equal gifs Hmore) as Hg.
    unfold gifs, sink_events in *. rewrite !omap_app in Hg.
    rewrite omap_cons. simpl.
    destruct (truthy (results_plotting results)); simpl in Hg.
    + destruct (omap _ rest0) as [|g gs]; [by left|right].
      injection Hg as <- Hg. symmetry in Hg.
      apply app_eq_nil in Hg as [-> _]. done.
    + symmetry in Hg. apply app_eq_nil in Hg as [-> _]. by left.
  - destruct Hout as [_ ->]. by left.
Qed.

(** The calls of [save_gif] in a run of the loop *)
Lemma trials_loop_gifs indices st s r s' new :
  loop' indices st s = (r, s') ->
  s'.2 = s.2 ++ new ->
  (truthy (results_plotting results) = false -> gifs new = []) /\
  (truthy (results_plotting results) = true ->
     gifs new `prefix_of` (trial_calls new).*1 /\
     (forall st', r = Ok st' -> gifs new = (trial_calls new).*1)).
Proof.
  intros Hrun Hnew.
  apply trials_loop_spec in Hrun as (ts & tail & Htr & _ & _ & Hr).
  rewrite Hnew in Htr. apply app_inv_head in Htr. subst new.
  unfold gifs, trial_calls. rewrite !omap_app.
  fold (gifs (turns_events' (run_data st) ts)).
  fold (trial_calls (turns_events' (run_data st) ts)).
  fold (gifs tail). fold (trial_calls tail).
  rewrite gifs_turns, trial_calls_turns, fmap_app, <- list_fmap_compose.
  destruct r as [st'|e].
  - destruct Hr as (_ & -> & _). simpl. rewrite !app_nil_r.
    split; intros ->; [done|]. split; [done|]. by intros _ _.
  - destruct Hr as (k & _ & Hbr).
    pose proof (broken_turn_gifs _ _ _ _ Hbr) as Hg.
    apply broken_turn_inv in Hbr as (out & -> & _). simpl.
    split.
    + intros Hp. rewrite Hp in *. by destruct Hg as [->|[? _]].
    + intros Hp. rewrite Hp. split; [|done].
      destruct Hg as [->|[_ ->]].
      * rewrite app_nil_r. by apply prefix_app_r.
      * done.
Qed.

End RateFacts.

Section RunEdges.
Context `{Builtins} `{!Externals}.

(** X4. Lines 88-89 read [result[6][-1]] and [result[7][-1]] before
    anything is printed or written. When [mcts_trial] returns, at index k, a
    payload in which one of the two is missing, [run_mcts] raises the error
    of the first of the two readings that fails: [IndexError] when the
    payload is too short or holds an empty list or an empty string at the
    position, [TypeError] when it holds something that is neither a list
    nor a string; position 7 decides only when position 6 could be read.
    That call of [mcts_trial] is the last event of the run: no line of the
    report and no call of [write_dataframe] or [save_gif] follows it, so the
    entry that line 84 appended for this trial is never handed to the
    sink. *)
Theorem payload_without_rates_ends_run
    env config fig ax gst mcts_defaults s r s' new k result :
  run_mcts env config fig ax gst mcts_defaults s = (r, s') ->
  s'.2 = s.2 ++ new ->
  (k, Ok result) ∈ trial_calls new ->
  (forall c l, ~ (last_at result 6 c /\ last_at result 7 l)) ->
  (exists e, r = Err e /\ (e = IndexError \/ e = TypeError) /\
     (no_last_at result 6 e \/
      exists c, last_at result 6 c /\ no_last_at result 7 e)) /\
  (exists a, last new = Some (EvTrial k a (Ok result))).
Proof.
  intros Hrun Hnew Hk Hno.
  assert (forall c l, ~ (last_of result 6 = Ok c /\ last_of result 7 = Ok l))
    as Hno'.
  { intros c l [Hc Hl]. apply (Hno c l). by rewrite <- !last_of_ok. }
  apply run_mcts_inv in Hrun as (r0 & Hrun & Hr0).
  apply run_mcts_loop_inv in Hrun
    as [(e & _ & ->)|(sims & d & nr & it & pl & idx & _ & _ & _ & _ & _ & _
                      & Hrun)].
  { assert (new = []) as ->.
    { apply (app_inv_head s.2). by rewrite app_nil_r. }
    by apply elem_of_nil in Hk. }
  destruct (trials_loop_without_rates _ _ _ _ _ _ _ _ _ _ _ _ _ _ _ _
              Hrun Hnew Hk Hno') as [(e & -> & He) Hlast].
  split; [|by eexists].
  exists e. split; [done|]. split.
  - destruct He as [He|(c & _ & He)]; by apply last_of_error in He.
  - destruct He as [He|(c & Hc & He)].
    + left. by apply last_of_err.
    + right. exists c. split; [by apply last_of_ok|by apply last_of_err].
Qed.

(** The calls of [save_gif] in a run of [run_mcts] *)
Lemma run_gifs env config fig ax gst mcts_defaults pl s r s' new :
  run_mcts env config fig ax gst mcts_defaults s = (r, s') ->
  s'.2 = s.2 ++ new ->
  default mcts_defaults config !! "plotting" = Some pl ->
  gifs new `prefix_of` (if truthy pl then (trial_calls new).*1 else []) /\
  (r = Ok tt -> gifs new = if truthy pl then (trial_calls new).*1 else []).
Proof.
  intros Hrun Hnew Hpl.
  apply run_mcts_inv in Hrun as (r0 & Hrun & Hr0).
  apply run_mcts_loop_inv in Hrun
    as [(e & _ & ->)|(sims & d & nr & it & pl' & idx & _ & _ & _ & _ & Hpl' & _
                      & Hrun)].
  { assert (new = []) as ->.
    { apply (app_inv_head s.2). by rewrite app_nil_r. }
    by destruct (truthy pl). }
  unfold getattr in Hpl'. rewrite Hpl in Hpl'. injection Hpl' as <-.
  destruct (trials_loop_gifs _ _ _ _ _ _ _ _ _ _ _ _ _ _ Hrun Hnew)
    as [Hoff Hon].
  simpl in Hoff, Hon. destruct (truthy pl).
  - destruct (Hon eq_refl) as [Hpre Hall]. split; [done|].
    intros ->. destruct r0 as [st'|e]; [by eapply Hall|done].
  - by rewrite (Hoff eq_refl).
Qed.


End RunEdges.

Section ResolveEdges.
Context `{Builtins}.

Lemma take_actions_other argv : forall ns ns' k,
  take_actions argv ns = Ok ns' -> (forall f, dest f <> k) ->
  ns' !! k = ns !! k.
Proof.
  induction argv as [|[g s] argv IH]; intros ns ns' k Hok Hk; simpl in Hok.
  - by injection Hok as <-.
  - destruct (get_value g s) as [v|]; [|done].
    rewrite (IH _ _ k Hok Hk). by apply lookup_insert_ne.
Qed.

Lemma convert_defaults_other argv defaults fs : forall ns ns' k,
  convert_defaults fs argv defaults ns = Ok ns' -> (forall f, dest f <> k) ->
  ns' !! k = ns !! k.
Proof.
  induction fs as [|g fs IH]; intros ns ns' k Hok Hk; simpl in Hok.
  - by injection Hok as <-.
  - destruct (seen argv g); [by apply IH|].
    destruct (defaults !! dest g) as [[|b|z|x|s]|]; try by apply IH.
    destruct (get_value g s) as [v|]; [|done].
    rewrite (IH _ _ k Hok Hk). by apply lookup_insert_ne.
Qed.

Lemma initial_namespace_other defaults k :
  (forall f, dest f <> k) -> initial_namespace defaults !! k = defaults !! k.
Proof.
  intros Hk. unfold initial_namespace. rewrite lookup_union.
  assert ((list_to_map ((fun f => (dest f, VNone)) <$> flags)
             : gmap string value) !! k = None) as ->.
  { apply not_elem_of_list_to_map_1. rewrite <- list_fmap_compose.
    intros Hin. apply list_elem_of_fmap in Hin as (f & -> & _).
    by destruct (Hk f). }
  by destruct (defaults !! k).
Qed.

Lemma parse_known_args_other defaults argv ns k :
  parse_known_args defaults argv = Ok ns -> (forall f, dest f <> k) ->
  ns !! k = defaults !! k.
Proof.
  unfold parse_known_args, res_bind. intros Hok Hk.
  destruct (take_actions argv (initial_namespace defaults)) as [ns1|e] eqn:H1;
    [|done].
  rewrite (convert_defaults_other _ _ _ _ _ _ Hok Hk),
    (take_actions_other _ _ _ _ H1 Hk).
  by apply initial_namespace_other.
Qed.


(** X8. Without a file configuration, a key that no flag declares is in the
    resolved name space exactly as it is in [mcts_defaults]
    ([set_defaults], line 121): with the same value when it is there, and
    absent when it is not. *)
Theorem undeclared_keys_kept mcts_defaults argv config ns k :
  resolve None mcts_defaults argv = Ok (config, ns) ->
  (forall f, dest f <> k) ->
  ns !! k = mcts_defaults !! k.
Proof.
  intros Hres Hk. apply resolve_ok in Hres as (-> & Hparse).
  by apply (parse_known_args_other _ argv).
Qed.


End ResolveEdges.

Section EntryEdges.
Context `{Builtins} `{!Externals}.

(** [mcts] after the resolution: it stops at the default environment or at
    the header, or calls [run_mcts] with the environment supplied, or the
    default one. *)
Lemma mcts_run_inv args env mcts_defaults argv s r s' config ns :
  mcts args env mcts_defaults argv s = (r, s') ->
  resolve args mcts_defaults argv = Ok (config, ns) ->
  (exists e, r = Err e /\
     (env = None /\ (exists w, default_env s.1 = (Err e, w)) /\ s'.2 = s.2 \/
      exists c t, config = Some c /\
        s'.2 = s.2 ++ [EvHeader c "mcts" (strftime t)])) \/
  exists e0 t s1,
    match env with
    | Some e => e0 = e
    | None => exists w, default_env s.1 = (Ok e0, w)
    end /\
    s1.2 = s.2 ++ header_of config (strftime t) /\
    run_mcts e0 (Some ns) None None (Some (strftime t)) mcts_defaults s1
      = (r, s').
Proof.
  unfold mcts. intros Hrun Hres.
  run_bind Hrun; apply lift_inv in Hstep as [Hres' ->];
    rewrite Hres in Hres'; [|done].
  injection Hres' as <-. simpl in Hrun.
  run_bind Hrun.
  2:{ left. exists e. split; [done|]. left.
      destruct env as [e1|]; [by apply ret_inv in Hstep as [? _]|].
      split; [done|].
      apply call_inv_world in Hstep as (w & Hw & ->). simpl.
      split; [by exists w|]. by rewrite app_nil_r. }
  assert (s0.2 = s.2 /\
          match env with
          | Some e => a = e
          | None => exists w, default_env s.1 = (Ok a, w)
          end) as [Henv Ha].
  { destruct env as [e1|].
    - apply ret_inv in Hstep as [[= ->] ->]. done.
    - apply call_inv_world in Hstep as (w & Hw & ->). simpl.
      rewrite app_nil_r. eauto. }
  rename a into e0.
  run_bind Hrun; [|by apply clock_inv in Hstep0 as [[? ?] _]].
  apply clock_inv in Hstep0 as [_ Hclock]. rename a into t.
  run_bind Hrun.
  - right. exists e0, t, s2. split; [done|]. split; [|done].
    destruct config as [c|]; simpl.
    + apply call_inv in Hstep0. by rewrite Hstep0, Hclock, Henv.
    + apply ret_inv in Hstep0 as [_ ->]. by rewrite app_nil_r, Hclock, Henv.
  - left. exists e. split; [done|].
    destruct config as [c|]; simpl.
    + right. exists c, t. split; [done|].
      apply call_inv in Hstep0. by rewrite Hstep0, Hclock, Henv.
    + by apply ret_inv in Hstep0 as [? _].
Qed.

(** What a run of [mcts] adds to the trace after the header is a run of
    [run_mcts] on the resolved name space. *)
Lemma mcts_run_trace args env mcts_defaults argv s r s' new :
  mcts args env mcts_defaults argv s = (r, s') ->
  s'.2 = s.2 ++ new ->
  ((exists e, r = Err e) /\ trial_arguments new = [] /\ trial_calls new = [] /\
   writes new = [] /\ lines new = [] /\ gifs new = []) \/
  exists config ns e0 t s1 rest,
    resolve args mcts_defaults argv = Ok (config, ns) /\
    match env with
    | Some e => e0 = e
    | None => exists w, default_env s.1 = (Ok e0, w)
    end /\
    new = header_of config (strftime t) ++ rest /\
    s'.2 = s1.2 ++ rest /\
    run_mcts e0 (Some ns) None None (Some (strftime t)) mcts_defaults s1
      = (r, s').
Proof.
  intros Hrun Hnew.
  destruct (resolve args mcts_defaults argv) as [[config ns]|e] eqn:Hres.
  - destruct (mcts_run_inv _ _ _ _ _ _ _ _ _ Hrun Hres)
      as [(e & -> & Htr)|(e0 & t & s1 & He0 & Htr & Hrun')].
    + left. split; [by eexists|].
      destruct Htr as [(_ & _ & Htr)|(c & t & -> & Htr)].
      * assert (new = []) as ->; [|done].
        apply (app_inv_head s.2). by rewrite app_nil_r, <- Hnew.
      * assert (new = [EvHeader c "mcts" (strftime t)]) as ->; [|done].
        apply (app_inv_head s.2). by rewrite <- Hnew.
    + right. destruct (run_mcts_extends _ _ _ _ _ _ _ _ _ Hrun') as [rest Hrest].
      exists config, ns, e0, t, s1, rest. do 2 (split; [done|]).
      split; [|done].
      apply (app_inv_head s.2). by rewrite <- Hnew, Hrest, Htr, app_assoc.
  - apply mcts_inv in Hrun. rewrite Hres in Hrun. destruct Hrun as [-> ->].
    left. split; [by eexists|].
    assert (new = []) as ->; [|done].
    apply (app_inv_head s.2). by rewrite app_nil_r, <- Hnew.
Qed.

Lemma header_of_views config start :
  trial_arguments (header_of config start) = [] /\
  trial_calls (header_of config start) = [] /\
  writes (header_of config start) = [] /\
  lines (header_of config start) = [] /\
  gifs (header_of config start) = [].
Proof. by destruct config. Qed.

(** After [parse_known_args] the name space has the five attributes that
    [run_mcts] reads. *)
Lemma resolve_attributes args mcts_defaults argv config ns :
  resolve args mcts_defaults argv = Ok (config, ns) ->
  Forall (fun n => is_Some (ns !! n)) attributes.
Proof.
  intros Hres.
  assert (exists d, parse_known_args d argv = Ok ns) as [d Hparse].
  { apply resolve_ok in Hres. destruct args as [a|].
    - destruct Hres as (c & d & _ & _ & ?). eauto.
    - destruct Hres as [_ ?]. eauto. }
  assert (forall f, is_Some (ns !! dest f)) as Hf.
  { intros f. destruct (parse_known_args_value _ _ _ f Hparse) as (v & -> & _).
    by eexists. }
  unfold attributes.
  repeat apply Forall_cons_2; [apply (Hf simulations)|apply (Hf depth)
    |apply (Hf trials)|apply (Hf iterations)|apply (Hf plotting)|].
  apply Forall_nil_2.
Qed.

(** A flag that no layer specifies resolves to [None]. *)
Lemma unspecified_flag_none args mcts_defaults argv config ns f :
  resolve args mcts_defaults argv = Ok (config, ns) ->
  given argv f = None -> in_file args f = None ->
  no_default args mcts_defaults f ->
  ns !! dest f = Some VNone.
Proof.
  intros Hres Hg Hf Hd.
  apply resolve_ok in Hres. destruct args as [a|].
  - destruct Hres as (c & d & Hfile & -> & Hparse).
    apply file_layer_ok in Hfile
      as (section & m & sp & b & Hm & Ha & -> & Hp & Hb & ->).
    destruct (parse_known_args_value _ _ _ f Hparse) as (v & Hv & Hfv).
    unfold flag_value in Hfv. rewrite Hg in Hfv.
    unfold in_file in Hf. simpl in Hf. rewrite Ha in Hf. simpl in Hf.
    pose proof (merged_default section m _ Hf) as Hl.
    rewrite (stringify_lookup_none _ _ _ Hm Hd) in Hl.
    destruct (decide (f = plotting)) as [->|Hne].
    + simpl in Hl. congruence.
    + rewrite file_defaults_other, Hl in Hfv by done. simpl in Hfv.
      congruence.
  - destruct Hres as (-> & Hparse).
    destruct (parse_known_args_value _ _ _ f Hparse) as (v & Hv & Hfv).
    unfold flag_value in Hfv. simpl in Hd. rewrite Hg, Hd in Hfv. congruence.
Qed.


(** X9. When no layer specifies [trials] (no argument on the command line,
    no entry in section ["Defaults"] of the file, and no built-in default:
    none under the key [trials] when no file is supplied, and none under a
    key that is [trials] up to the case of letters when a file is, since
    line 111 puts the keys in lower case), a run of [mcts] never completes,
    and it calls neither [mcts_trial] nor the sink and prints nothing:
    [trials] resolves to [None], and line 70 raises [TypeError]. With an
    environment supplied and no file, [TypeError] is what [mcts] raises and
    the trace stays as it was; with an environment and a file that resolves,
    the header is written all the same, and is all that the run leaves. *)
Theorem missing_trials_type_error args env mcts_defaults argv s r s' new :
  mcts args env mcts_defaults argv s = (r, s') ->
  s'.2 = s.2 ++ new ->
  given argv trials = None -> in_file args trials = None ->
  no_default args mcts_defaults trials ->
  (exists e, r = Err e) /\ trial_calls new = [] /\ writes new = [] /\
  lines new = [] /\
  (forall e0 ns,
     env = Some e0 -> resolve args mcts_defaults argv = Ok (None, ns) ->
     r = Err TypeError /\ new = []) /\
  (forall e0 c ns,
     env = Some e0 -> resolve args mcts_defaults argv = Ok (Some c, ns) ->
     exists t, new = [EvHeader c "mcts" (strftime t)]).
Proof.
  intros Hrun Hnew Hg Hf Hd.
  assert (forall config ns e0 t s1,
            resolve args mcts_defaults argv = Ok (config, ns) ->
            run_mcts e0 (Some ns) None None (Some (strftime t)) mcts_defaults
              s1 = (r, s') ->
            r = Err TypeError /\ s' = s1) as Hstop.
  { intros config ns e0 t s1 Hres Hrun'.
    pose proof (unspecified_flag_none _ _ _ _ _ trials Hres Hg Hf Hd) as Hnone.
    pose proof (resolve_attributes _ _ _ _ _ Hres) as Hall.
    rewrite (run_mcts_range_error e0 (Some ns) None None _ mcts_defaults
               VNone TypeError s1 Hall Hnone eq_refl) in Hrun'.
    by injection Hrun' as <- <-. }
  split; [|split; [|split; [|split; [|split]]]].
  6:{ intros e0 c ns -> Hres.
      destruct (mcts_run_inv _ _ _ _ _ _ _ _ _ Hrun Hres)
        as [(e & -> & [[? _]|(c' & t & [= <-] & Htr)])
           |(e1 & t & s1 & _ & Htr & Hrun')]; [done| |].
      - exists t. apply (app_inv_head s.2). by rewrite <- Hnew.
      - destruct (Hstop _ _ _ _ _ Hres Hrun') as [-> ->]. exists t.
        apply (app_inv_head s.2). by rewrite <- Hnew. }
  5:{ intros e0 ns -> Hres.
      destruct (mcts_run_inv _ _ _ _ _ _ _ _ _ Hrun Hres)
        as [(e & -> & [[? _]|(c & t & ? & _)])|(e1 & t & s1 & _ & Htr & Hrun')];
        [done|done|].
      destruct (Hstop _ _ _ _ _ Hres Hrun') as [-> ->]. split; [done|].
      simpl in Htr. rewrite app_nil_r in Htr.
      apply (app_inv_head s.2). by rewrite app_nil_r, <- Hnew. }
  all: destruct (mcts_run_trace _ _ _ _ _ _ _ _ Hrun Hnew)
    as [(He & _ & Hc & Hw & Hl & _)|(config & ns & e0 & t & s1 & rest & Hres & He0
                                   & -> & Hrest & Hrun')]; [done|].
  all: destruct (Hstop _ _ _ _ _ Hres Hrun') as [-> ->].
  all: assert (rest = []) as ->
    by (apply (app_inv_head s1.2); by rewrite app_nil_r).
  all: rewrite ?app_nil_r.
  all: destruct (header_of_views config (strftime t)) as (_ & Hc & Hw & Hl & _).
  all: by eauto.
Qed.

(** The resolved [plotting], from the command line or from the file *)
Lemma resolved_plotting args mcts_defaults argv config ns :
  resolve args mcts_defaults argv = Ok (config, ns) ->
  (forall w, given argv plotting = Some w ->
     ns !! "plotting" = Some (VBool (py_bool w))) /\
  (forall w, given argv plotting = None -> in_file args plotting = Some w ->
     exists b, convert_to_boolean w = Some b /\
       ns !! "plotting" = Some (VBool b)).
Proof.
  intros Hres.
  assert (exists d, parse_known_args d argv = Ok ns /\
            forall w, in_file args plotting = Some w ->
              exists b, convert_to_boolean w = Some b /\
                d !! "plotting" = Some (VBool b)) as (d & Hparse & Hfile).
  { apply resolve_ok in Hres. destruct args as [a|].
    - destruct Hres as (c & d & Hfile & _ & Hparse). exists d. split; [done|].
      apply file_layer_ok in Hfile
        as (section & m & sp & b & Hm & Ha & -> & Hp & Hb & ->).
      intros w Hw. unfold in_file in Hw. simpl in Hw. rewrite Ha in Hw.
      simpl in Hw.
      rewrite (merged_section _ _ _ _ Hw) in Hp. injection Hp as ->.
      exists b. by rewrite lookup_insert_eq.
    - destruct Hres as [_ Hparse]. exists mcts_defaults. split; [done|].
      intros w Hw. done. }
  destruct (parse_known_args_value _ _ _ plotting Hparse) as (v & Hv & Hfv).
  unfold flag_value in Hfv. simpl in Hv, Hfv. split.
  - intros w Hw. rewrite Hw in Hfv. unfold get_value in Hfv. simpl in Hfv.
    congruence.
  - intros w Hg Hw. rewrite Hg in Hfv.
    destruct (Hfile w Hw) as (b & Hb & Hd). rewrite Hd in Hfv.
    exists b. split; [done|]. congruence.
Qed.


End EntryEdges.

Section Header.
Context `{Builtins} `{!Externals}.


End Header.

Section RunFailures.
Context `{Builtins} `{!Externals}.


End RunFailures.

Section EntryFailures.
Context `{Builtins} `{!Externals}.

(** X14. A failure of a collaborator of [mcts] ends it before any trial:
    when building the default environment (lines 134-137) raises, [mcts]
    raises the same and the header is not written; when [write_header_log]
    (line 141) raises, [mcts] raises the same and [run_mcts] is not
    called. *)
Theorem entry_collaborator_errors args mcts_defaults argv config ns s :
  resolve args mcts_defaults argv = Ok (config, ns) ->
  (forall e w,
     default_env s.1 = (Err e, w) ->
     mcts args None mcts_defaults argv s = (Err e, (w, s.2))) /\
  (forall env e0 w0 c e w,
     config = Some c ->
     match env with
     | Some e1 => e0 = e1 /\ w0 = s.1
     | None => default_env s.1 = (Ok e0, w0)
     end ->
     write_header_log c "mcts" (strftime (now w0).1) (now w0).2 = (Err e, w) ->
     mcts args env mcts_defaults argv s
       = (Err e, (w, s.2 ++ [EvHeader c "mcts" (strftime (now w0).1)]))).
Proof.
  intros Hres. split.
  - intros e w He. unfold mcts, bind, lift, call. rewrite Hres. simpl.
    by rewrite He, app_nil_r.
  - intros env e0 w0 c e w -> Henv Hhead.
    unfold mcts, bind, lift, call, clock, ret. rewrite Hres. simpl.
    destruct env as [e1|].
    + destruct Henv as [-> ->]. simpl.
      destruct (now s.1) as [t w1]. simpl in *. by rewrite Hhead.
    + rewrite Henv. simpl.
      destruct (now w0) as [t w1]. simpl in *.
      by rewrite Hhead, app_nil_r.
Qed.

(** What the command line gives for a flag *)
Lemma resolved_given args mcts_defaults argv config ns f w :
  resolve args mcts_defaults argv = Ok (config, ns) ->
  given argv f = Some w ->
  ns !! dest f = get_value f w.
Proof.
  intros Hres Hg.
  assert (exists d, parse_known_args d argv = Ok ns) as [d Hparse].
  { apply resolve_ok in Hres. destruct args as [a|].
    - destruct Hres as (c & d & _ & _ & ?). eauto.
    - destruct Hres as [_ ?]. eauto. }
  rewrite (parse_known_args_flag _ _ _ f Hparse). unfold flag_value.
  by rewrite Hg.
Qed.


End EntryFailures.

Section ResolveIdentity.
Context `{Builtins}.

Lemma convert_defaults_nothing defaults fs : forall ns,
  (forall f, exists v, defaults !! dest f = Some v /\ ~ is_string v) ->
  convert_defaults fs [] defaults ns = Ok ns.
Proof.
  induction fs as [|g fs IH]; intros ns Hall; [done|].
  cbn [convert_defaults].
  replace (seen [] g) with false
    by (symmetry; apply bool_decide_eq_false, not_elem_of_nil).
  destruct (Hall g) as (v & -> & Hv).
  destruct v; try by apply IH. by destruct Hv.
Qed.

Lemma initial_namespace_complete defaults :
  (forall f, is_Some (defaults !! dest f)) ->
  initial_namespace defaults = defaults.
Proof.
  intros Hall. apply map_eq. intros k.
  destruct (decide (k ∈ dest <$> flags)) as [Hin|Hout].
  - apply list_elem_of_fmap in Hin as (f & -> & _).
    rewrite initial_namespace_flag. by destruct (Hall f) as [v ->].
  - apply initial_namespace_other. intros f <-. apply Hout.
    apply list_elem_of_fmap. exists f. split; [done|apply flags_all].
Qed.


End ResolveIdentity.

Section TrialCount.
Context `{Builtins} `{!Externals}.

(** What the file gives for a flag other than [plotting] that the command
    line leaves out *)
Lemma resolved_in_file a mcts_defaults argv config ns f w :
  resolve (Some a) mcts_defaults argv = Ok (config, ns) ->
  f <> plotting ->
  given argv f = None -> in_file (Some a) f = Some w ->
  ns !! dest f = get_value f w.
Proof.
  intros Hres Hne Hg Hw.
  apply resolve_ok in Hres as (c & d & Hfile & -> & Hparse).
  apply file_layer_ok in Hfile
    as (section & m & sp & b & Hm & Ha & -> & Hp & Hb & ->).
  rewrite (parse_known_args_flag _ _ _ f Hparse). unfold flag_value.
  rewrite Hg, file_defaults_other by done.
  unfold in_file in Hw. simpl in Hw. rewrite Ha in Hw. simpl in Hw.
  by rewrite (merged_section _ _ _ _ Hw).
Qed.


End TrialCount.

(** * The theorems on the sample runs *)

Module SampleRuns.
Import Sample.
#[local] Existing Instance builtins.

Lemma ok_or_eq {A : Type} (d : A) (r : res A) :
  is_ok r = true -> r = Ok (ok_or d r).
Proof. by destruct r. Qed.

Lemma some_default {A : Type} (d : A) (o : option A) :
  is_some o = true -> o = Some (default d o).
Proof. by destruct o. Qed.

Lemma first_ok {A B : Type} (d : A) (p : res A * B) :
  is_ok p.1 = true -> p = (Ok (ok_or d p.1), p.2).
Proof. destruct p as [[a|e] b]; by intros. Qed.

Lemma first_is {A B : Type} (a : A) (p : A * B) : p.1 = a -> p = (a, p.2).
Proof. destruct p. by intros <-. Qed.

Lemma ok_pair {A B : Type} (d : A * B) (r : res (A * B)) :
  is_ok r = true -> r = Ok ((ok_or d r).1, (ok_or d r).2).
Proof. destruct r as [[a b]|e]; [reflexivity|discriminate]. Qed.

Lemma ok_first {A B : Type} (d : A * B) (a : A) (r : res (A * B)) :
  is_ok r = true -> (ok_or d r).1 = a -> r = Ok (a, (ok_or d r).2).
Proof. destruct r as [[a' b]|e]; [simpl; congruence|discriminate]. Qed.

Lemma is_some_true {A : Type} (o : option A) : is_some o = true -> is_Some o.
Proof. destruct o; [by eexists|discriminate]. Qed.

Lemma head_tail {A : Type} (l : list A) (x : A) :
  head l = Some x -> l = x :: tail l.
Proof. destruct l; simpl; congruence. Qed.

Lemma plain_word s :
  bool_decide ("%"%char ∈ list_ascii_of_string s) = false -> plain s.
Proof. apply bool_decide_eq_false_1. Qed.

Lemma plain_sample_file section :
  map_Forall (fun _ s => plain s) section ->
  plain_file {[ "Defaults" := section ]}.
Proof.
  intros Hall name section' k s Hn Hk.
  apply lookup_singleton_Some in Hn as [_ <-]. exact (Hall k s Hk).
Qed.

Lemma accepted_sample d :
  is_ok (stringify d) = true -> accepted_defaults d.
Proof.
  intros Hok. exact (proj1 (stringify_ok d _ (ok_or_eq ∅ _ Hok))).
Qed.

Lemma plain_sample_defaults (d : gmap string value) :
  map_Forall
    (fun _ v => forall s, py_str v = Some s ->
                  bool_decide ("%"%char ∈ list_ascii_of_string s) = false) d ->
  plain_defaults d.
Proof. intros Hall k v s Hk Hs. exact (plain_word s (Hall k v Hk s Hs)). Qed.

Lemma plain_defaults_sample : plain_defaults defaults.
Proof.
  apply plain_sample_defaults. unfold defaults.
  repeat (apply map_Forall_insert_2;
          [intros s Hs; injection Hs as <-; vm_compute; reflexivity|]).
  apply map_Forall_empty.
Qed.

(** The run of three trials has three entries, one per call of the
    engine. *)
Lemma run_data_one_entry_per_trial_witness :
  1 <= 3 /\
  default defaults None !! "trials" = Some (VInt 3) /\
  loop3 = (Ok (ok_or initial_state loop3.1), loop3.2) /\
  length (run_data (ok_or initial_state loop3.1)) = 3%nat.
Proof.
  assert (H1 : 1 <= 3) by lia.
  assert (H2 : default defaults None !! "trials" = Some (VInt 3))
    by reflexivity.
  assert (H3 : loop3 = (Ok (ok_or initial_state loop3.1), loop3.2))
    by (apply first_ok; vm_compute; reflexivity).
  assert (H4 : loop3.2.2 = (start None).2 ++ loop3.2.2)
    by exact (eq_sym (app_nil_l _)).
  repeat (split; [assumption|]).
  exact (proj1 (@run_data_one_entry_per_trial builtins (externals None)
                  0%nat None None None None defaults 3 (start None)
                  (ok_or initial_state loop3.1) loop3.2 loop3.2.2
                  H1 H2 H3 H4)).
Defined.


(** The rates printed in the run of three trials *)
Lemma rates_divide_by_trial_index_witness :
  default defaults None !! "trials" = Some (VInt 3) /\
  exists sims d ts rest,
    lines loop3.2.2 = (ts ≫= report_of sims d) ++ rest /\
    Forall (fun t => @rates_of_payload builtins (externals None) t /\
                     1 <= turn_index t <= 3) ts /\
    rest = [] /\ length ts = 3%nat.
Proof.
  assert (H2 : default defaults None !! "trials" = Some (VInt 3))
    by reflexivity.
  assert (H3 : loop3 = (Ok (ok_or initial_state loop3.1), loop3.2))
    by (apply first_ok; vm_compute; reflexivity).
  assert (H4 : loop3.2.2 = (start None).2 ++ loop3.2.2)
    by exact (eq_sym (app_nil_l _)).
  split; [assumption|].
  destruct (@rates_divide_by_trial_index builtins (externals None)
              0%nat None None None None defaults 3 (start None)
              _ loop3.2 loop3.2.2 H2 H3 H4)
    as (sims & d & ts & rest & Hl & _ & _ & HF & Hok & _).
  exists sims, d, ts, rest.
  split; [assumption|]. split; [assumption|].
  exact (Hok _ eq_refl).
Defined.


(** The runs of [mcts] on the sample collaborators: without file and command
    line, with [--trials 1 --plotting true], and with the file and
    [--trials 1] *)
Local Abbreviation run_default :=
  (@mcts builtins (externals None) None (Some 0%nat)
     (@scenario_defaults builtins 1 (-2) (-2)) [] (start None)).

Local Abbreviation run_cli :=
  (@mcts builtins (externals None) None (Some 0%nat)
     (@scenario_defaults builtins 1 (-2) (-2))
     [(trials, "1"); (plotting, "true")] (start None)).

Local Abbreviation run_file :=
  (@mcts builtins (externals None) (Some file) (Some 0%nat) defaults
     one_trial (start None)).

Local Abbreviation run3 :=
  (@run_mcts builtins (externals None) 0%nat None None None None defaults
     (start None)).

(** C1. The command line [--trials 1 --plotting False], over built-in
    defaults that say [plotting = False] and without file: the resolution
    succeeds and [plotting] resolves to [True], which neither the command
    line nor the defaults specify, since line 127 declares the flag with
    [type=bool] and [bool] of the non-empty word [False] is [True]. The
    [plotting] entry [False] of a file resolves to [False], for line 115
    reads it with [getboolean]. *)
Theorem plotting_false_resolves_true :
  given plotting_false plotting = Some "False" /\
  defaults !! "plotting" = Some (VBool false) /\
  (exists ns,
     resolve None defaults plotting_false = Ok (None, ns) /\
     ns !! "plotting" = Some (VBool true)) /\
  (exists c ns,
     resolve (Some {[ "Defaults" := {[ "plotting" := "False" ]} ]})
       plotting_on [] = Ok (c, ns) /\
     ns !! "plotting" = Some (VBool false)).
Proof.
  split; [reflexivity|]. split; [vm_compute; reflexivity|]. split.
  - exists (ok_or (None, ∅) (resolve None defaults plotting_false)).2.
    split; [apply ok_first; vm_compute; reflexivity|].
    vm_compute; reflexivity.
  - exists (ok_or (None, ∅)
              (resolve (Some {[ "Defaults" := {[ "plotting" := "False" ]} ]})
                 plotting_on [])).1,
      (ok_or (None, ∅)
         (resolve (Some {[ "Defaults" := {[ "plotting" := "False" ]} ]})
            plotting_on [])).2.
    split; [apply ok_pair; vm_compute; reflexivity|].
    vm_compute; reflexivity.
Qed.








(** ** The edge cases on the sample collaborators *)

Ltac present :=
  repeat apply Forall_cons_2; try apply Forall_nil_2;
  apply is_some_true; vm_compute; reflexivity.

Local Abbreviation run_of cfg :=
  (@run_mcts builtins (externals None) 0%nat (Some cfg) None None None ∅
     (start None)).

Local Abbreviation run_short :=
  (@run_mcts builtins short_externals 0%nat (Some defaults) None None None ∅
     short_start).

Local Abbreviation entry_of env d argv :=
  (@mcts builtins (externals None) None env d argv (start None)).

(** Without [iterations], the three attributes before it being there *)
Lemma missing_attribute_raises_witness :
  no_iterations !! "iterations" = None /\
  run_of no_iterations = (Err (AttributeError "iterations"), start None).
Proof.
  assert (H1 : attributes =
               ["simulations"; "depth"; "trials"] ++ "iterations" :: ["plotting"])
    by reflexivity.
  assert (H2 : Forall (fun n => is_Some (default ∅ (Some no_iterations) !! n))
                 ["simulations"; "depth"; "trials"]) by present.
  assert (H3 : default ∅ (Some no_iterations) !! "iterations" = None)
    by (vm_compute; reflexivity).
  split; [exact H3|].
  exact (@missing_attribute_raises builtins (externals None) 0%nat
           (Some no_iterations) None None None ∅ (start None) _ _ _ H1 H2 H3).
Defined.

(** With [trials = 0] *)
Lemma no_trial_without_positive_count_witness :
  0 <= 0 /\ run_of zero_trials = (Ok tt, start None).
Proof.
  assert (H1 : Forall (fun n => is_Some (default ∅ (Some zero_trials) !! n))
                 attributes) by present.
  assert (H2 : default ∅ (Some zero_trials) !! "trials" = Some (VInt 0))
    by (vm_compute; reflexivity).
  assert (H3 : 0 <= 0) by lia.
  split; [exact H3|].
  exact (@no_trial_without_positive_count builtins (externals None) 0%nat
           (Some zero_trials) None None None ∅ 0 (start None) H1 H2 H3).
Defined.

(** With the string ["3"] for [trials] *)
Lemma trials_not_int_raises_witness :
  text_trials !! "trials" = Some (VStr "3") /\
  run_of text_trials = (Err TypeError, start None).
Proof.
  assert (H1 : Forall (fun n => is_Some (default ∅ (Some text_trials) !! n))
                 attributes) by present.
  assert (H2 : default ∅ (Some text_trials) !! "trials" = Some (VStr "3"))
    by (vm_compute; reflexivity).
  assert (H3 : forall n, @VStr builtins "3" <> VInt n) by discriminate.
  assert (H4 : forall b, @VStr builtins "3" <> VBool b) by discriminate.
  split; [exact H2|].
  exact (@trials_not_int_raises builtins (externals None) 0%nat
           (Some text_trials) None None None ∅ _ (start None) H1 H2 H3 H4).
Defined.

(** An engine whose payload has two entries: the first trial ends the
    run. *)
Lemma payload_without_rates_ends_run_witness :
  (1, Ok short_payload) ∈ trial_calls run_short.2.2 /\
  run_short.1 = Err IndexError /\
  exists a, last run_short.2.2 = Some (EvTrial 1 a (Ok short_payload)).
Proof.
  assert (H1 : run_short = (run_short.1, run_short.2))
    by apply surjective_pairing.
  assert (H2 : run_short.2.2 = short_start.2 ++ run_short.2.2)
    by exact (eq_sym (app_nil_l _)).
  assert (H3 : (1, Ok short_payload) ∈ trial_calls run_short.2.2).
  { apply list_elem_of_lookup. exists 0%nat. vm_compute. reflexivity. }
  assert (H4 : forall c l, ~ (@last_at builtins short_payload 6 c /\
                              @last_at builtins short_payload 7 l)).
  { intros c l [(x & Hx & _) _]. discriminate Hx. }
  split; [exact H3|].
  destruct (@payload_without_rates_ends_run builtins short_externals 0%nat
              (Some defaults) None None None ∅ short_start
              run_short.1 run_short.2 run_short.2.2 1 short_payload
              H1 H2 H3 H4) as [(e & He & _ & Hlast) Hend].
  split; [|exact Hend].
  rewrite He. f_equal.
  destruct Hlast as [Hl|(c & (x & Hx & _) & _)]; [exact Hl|discriminate Hx].
Defined.

(** Another [lambda_arg] gives the same run. *)
Lemma run_reads_five_attributes_witness :
  defaults !! "lambda_arg" <> other_lambda !! "lambda_arg" /\
  run_of defaults = run_of other_lambda.
Proof.
  assert (H1 : Forall (fun n => defaults !! n = other_lambda !! n) attributes).
  { repeat apply Forall_cons_2; try apply Forall_nil_2;
      vm_compute; reflexivity. }
  split; [vm_compute; discriminate|].
  exact (@run_reads_five_attributes builtins (externals None) 0%nat
           defaults other_lambda None None None ∅ ∅ (start None) H1).
Defined.



(** A key that no flag declares stays as it is. *)
Lemma undeclared_keys_kept_witness :
  seeded !! "seed" = Some (VInt 7) /\
  (ok_or (None, ∅) (resolve None seeded [])).2 !! "seed" = seeded !! "seed".
Proof.
  assert (H0 : is_ok (resolve None seeded []) = true)
    by (vm_compute; reflexivity).
  assert (H1 := ok_pair (None, ∅) _ H0).
  assert (H2 : forall f, dest f <> "seed") by (intros []; discriminate).
  split; [vm_compute; reflexivity|].
  exact (@undeclared_keys_kept builtins seeded [] _ _ "seed" H1 H2).
Defined.

(** Without [trials] in any layer: [TypeError], and nothing done *)
Lemma missing_trials_type_error_witness :
  (entry_of (Some 0%nat) no_trials []).1 = Err TypeError /\
  (entry_of (Some 0%nat) no_trials []).2.2 = [].
Proof.
  assert (H1 : entry_of (Some 0%nat) no_trials []
               = ((entry_of (Some 0%nat) no_trials []).1,
                  (entry_of (Some 0%nat) no_trials []).2))
    by apply surjective_pairing.
  assert (H2 : (entry_of (Some 0%nat) no_trials []).2.2
               = (start None).2 ++ (entry_of (Some 0%nat) no_trials []).2.2)
    by exact (eq_sym (app_nil_l _)).
  assert (H3 : given [] trials = None) by reflexivity.
  assert (H4 : in_file None trials = None) by reflexivity.
  assert (H5 : no_default None no_trials trials)
    by (vm_compute; reflexivity).
  assert (H6 : resolve None no_trials []
               = Ok (None, (ok_or (None, ∅) (resolve None no_trials [])).2))
    by (apply ok_first; vm_compute; reflexivity).
  destruct (@missing_trials_type_error builtins (externals None) None
              (Some 0%nat) no_trials [] (start None) _ _ _ H1 H2 H3 H4 H5)
    as (_ & _ & _ & _ & Hplain & _).
  exact (Hplain 0%nat _ eq_refl H6).
Defined.




Local Abbreviation run_second :=
  (@run_mcts builtins (externals (Some 2)) 0%nat None None None None defaults
     (start (Some 2))).


(** The default environment cannot be built; the header cannot be
    written. *)
Lemma entry_collaborator_errors_witness :
  @mcts builtins faulty_externals None None defaults [] faulty_start
    = (Err (Raised 1), (faulty_start.1, faulty_start.2)) /\
  exists c,
    (ok_or (None, ∅) (resolve (Some file) defaults [])).1 = Some c /\
    @mcts builtins faulty_externals (Some file) (Some 0%nat) defaults []
      faulty_start
      = (Err (Raised 2),
         ((@now builtins faulty_externals faulty_start.1).2,
          faulty_start.2
            ++ [EvHeader c "mcts"
                  (@strftime builtins faulty_externals
                     (@now builtins faulty_externals faulty_start.1).1)])).
Proof.
  assert (H1 : resolve None defaults []
               = Ok (None, (ok_or (None, ∅) (resolve None defaults [])).2))
    by (apply ok_first; vm_compute; reflexivity).
  assert (H2 : resolve (Some file) defaults []
               = Ok (Some {| cp_defaults := omap py_str defaults;
                             cp_sections := file |},
                     (ok_or (None, ∅) (resolve (Some file) defaults [])).2))
    by (apply ok_first; vm_compute; reflexivity).
  split.
  - exact (proj1 (@entry_collaborator_errors builtins faulty_externals None
                    defaults [] _ _ faulty_start H1)
             (Raised 1) faulty_start.1 eq_refl).
  - exists {| cp_defaults := omap py_str defaults; cp_sections := file |}.
    split; [vm_compute; reflexivity|].
    exact (proj2 (@entry_collaborator_errors builtins faulty_externals
                    (Some file) defaults [] _ _ faulty_start H2)
             (Some 0%nat) 0%nat faulty_start.1 _ (Raised 2) _
             eq_refl (conj eq_refl eq_refl) eq_refl).
Defined.



Local Abbreviation run_file_only :=
  (@mcts builtins (externals None) (Some file) (Some 0%nat) defaults []
     (start None)).


End SampleRuns.
